(** * Roadmap tooling of cybernetic-amcp: a shallow embedding

    The development follows the two scripts under [scripts/roadmap]:
    - [generate.py]: the task loader, the two Markdown documents and the
      two CSV exports;
    - [create_github_issues.py]: its own task loader and the loop that
      calls the [gh] command-line tool once per task.

    Python values are embedded as follows.  A [str] is the list of its
    code points; a value read by [json.load] is a [json]; a raised
    exception is the [Raise] branch of [result]; the outside world (the
    source file, the [gh] tool) is an explicit oracle. *)

From Stdlib Require Import String Ascii DecimalString.
From stdpp Require Import gmap list sorting.

(** ** Python text *)

Module Py.

(** A code point, and a Python [str]. *)
Abbreviation char := N (only parsing).
Abbreviation str := (list N) (only parsing).

(** The [str] written as a literal in the source. *)
Definition lit (s : string) : str :=
  map N_of_ascii (list_ascii_of_string s).
Arguments lit s%_string.

Definition LF : char := 10%N.
Definition CR : char := 13%N.
Definition SPACE : char := 32%N.
Definition COMMA : char := 44%N.
Definition DQUOTE : char := 34%N.

(** [str.isspace] on one code point: the characters [str.strip()]
    removes. *)
Definition is_space (c : char) : bool :=
  ((9 <=? c) && (c <=? 13) || (28 <=? c) && (c <=? 32)
   || (c =? 133) || (c =? 160) || (c =? 5760)
   || (8192 <=? c) && (c <=? 8202)
   || (c =? 8232) || (c =? 8233) || (c =? 8239) || (c =? 8287)
   || (c =? 12288))%N.

Fixpoint lstrip (s : str) : str :=
  match s with
  | c :: s' => if is_space c then lstrip s' else s
  | [] => []
  end.

Definition rstrip (s : str) : str := reverse (lstrip (reverse s)).

(** [s.strip()] *)
Definition strip (s : str) : str := rstrip (lstrip s).

(** [s.replace(a, b)] for single characters [a] and [b]. *)
Definition replace_char (a b : char) (s : str) : str :=
  map (λ c, if (c =? a)%N then b else c) s.

(** [sep.join(l)] *)
Fixpoint join (sep : str) (l : list str) : str :=
  match l with
  | [] => []
  | [x] => x
  | x :: l' => x ++ sep ++ join sep l'
  end.

(** [a < b] on [str]: lexicographic on code points. *)
Fixpoint str_ltb (a b : str) : bool :=
  match a, b with
  | _, [] => false
  | [], _ :: _ => true
  | x :: a', y :: b' =>
      if (x <? y)%N then true
      else if (y <? x)%N then false
      else str_ltb a' b'
  end.

(** [str(n)] for a non-negative [int]. *)
Definition str_of_nat (n : nat) : str :=
  lit (NilZero.string_of_uint (Nat.to_uint n)).

(** *** Values produced by [json.load] *)

(** A Python [float]; only its truth value is ever observed. *)
Inductive pyfloat :=
| FFinite (m e : Z)     (* m * 2^e *)
| FInf (negative : bool)
| FNaN.

#[warnings="-register-all"] Inductive json :=
| JNull
| JBool (b : bool)
| JInt (z : Z)
| JFloat (f : pyfloat)
| JStr (s : str)
| JList (l : list json)
| JDict (d : list (str * json)).

(** A JSON object is kept as its list of items, in insertion order. *)
Abbreviation dict := (list (str * json)) (only parsing).

(** [bool(v)] *)
Definition truthy (v : json) : bool :=
  match v with
  | JNull => false
  | JBool b => b
  | JInt z => negb (z =? 0)%Z
  | JFloat (FFinite m _) => negb (m =? 0)%Z
  | JFloat _ => true
  | JStr s => negb (bool_decide (s = []))
  | JList l => match l with [] => false | _ => true end
  | JDict d => match d with [] => false | _ => true end
  end.

Definition is_str (v : json) : bool :=
  match v with JStr _ => true | _ => false end.

(** [a or b] *)
Definition py_or (a b : json) : json := if truthy a then a else b.

(** [type(v).__name__] *)
Definition type_name (v : json) : str :=
  match v with
  | JNull => lit "NoneType"
  | JBool _ => lit "bool"
  | JInt _ => lit "int"
  | JFloat _ => lit "float"
  | JStr _ => lit "str"
  | JList _ => lit "list"
  | JDict _ => lit "dict"
  end.

(** *** Exceptions *)

Inductive exn :=
| AttributeError (msg : str)
| TypeError (msg : str)
| FileNotFoundError (msg : str)
| JSONDecodeError (msg : str)
| KeyError (msg : str)
| OSError (msg : str)
| UnicodeEncodeError (msg : str)
| ValueError (msg : str).

(** [str(e)] *)
Definition exn_message (e : exn) : str :=
  match e with
  | AttributeError m | TypeError m | FileNotFoundError m
  | JSONDecodeError m | KeyError m | OSError m
  | UnicodeEncodeError m | ValueError m => m
  end.

(** *** Encoding text as UTF-8

    The files are opened with [encoding="utf-8"] and standard output is
    taken to encode as UTF-8 too, both strictly: every code point can
    be written but a surrogate, which [json.load] does produce from an
    escape such as [\ud800].  A text is encoded as a whole, so a text
    with a surrogate writes nothing. *)

Definition is_surrogate (c : char) : bool :=
  ((55296 <=? c) && (c <=? 57343))%N.

Definition encodable (s : str) : bool :=
  forallb (λ c, negb (is_surrogate c)) s.

(** The characters before the first surrogate. *)
Fixpoint before_surrogate (s : str) : str :=
  match s with
  | [] => []
  | c :: s' => if is_surrogate c then [] else c :: before_surrogate s'
  end.

(** The surrogates a text starts with. *)
Fixpoint leading_surrogates (s : str) : str :=
  match s with
  | [] => []
  | c :: s' => if is_surrogate c then c :: leading_surrogates s' else []
  end.

Definition hex_digit (n : N) : char :=
  if (n <? 10)%N then (48 + n)%N else (87 + n)%N.

(** The four hexadecimal digits of a code point below 65536. *)
Definition hex4 (c : char) : str :=
  [hex_digit (c / 4096 mod 16)%N; hex_digit (c / 256 mod 16)%N;
   hex_digit (c / 16 mod 16)%N; hex_digit (c mod 16)%N].

(** The [UnicodeEncodeError] of encoding [s], which holds a surrogate:
    it names the first run of surrogates. *)
Definition encode_error (s : str) : exn :=
  let start := length (before_surrogate s) in
  let run := leading_surrogates (drop start s) in
  UnicodeEncodeError
    (match run with
     | [c] =>
         lit "'utf-8' codec can't encode character '\u" ++ hex4 c
         ++ lit "' in position " ++ str_of_nat start
     | _ =>
         lit "'utf-8' codec can't encode characters in position "
         ++ str_of_nat start ++ lit "-"
         ++ str_of_nat (start + length run - 1)
     end ++ lit ": surrogates not allowed").

Inductive result (A : Type) :=
| Ok (a : A)
| Raise (e : exn).
Arguments Ok {A} a.
Arguments Raise {A} e.

#[global] Instance result_ret : MRet result := λ A a, Ok a.
#[global] Instance result_bind : MBind result := λ A B f m,
  match m with Ok a => f a | Raise e => Raise e end.

(** The error of [v.attr] when [v] has no such attribute. *)
Definition no_attribute {A} (v : json) (attr : str) : result A :=
  Raise (AttributeError
    (lit "'" ++ type_name v ++ lit "' object has no attribute '"
     ++ attr ++ lit "'")).

(** [v.strip()] *)
Definition py_strip (v : json) : result str :=
  match v with
  | JStr s => Ok (strip s)
  | _ => no_attribute v (lit "strip")
  end.

(** [d.get(k)] on a [dict]: [None] when the key is absent. *)
Fixpoint dict_get (d : dict) (k : str) (default : json) : json :=
  match d with
  | [] => default
  | (k', v) :: d' => if bool_decide (k' = k) then v else dict_get d' k default
  end.

Definition dict_has (d : dict) (k : str) : bool :=
  bool_decide (k ∈ d.*1).

(** [d.setdefault(k, v)], for its effect on [d]. *)
Definition dict_setdefault (d : dict) (k : str) (v : json) : dict :=
  if dict_has d k then d else d ++ [(k, v)].

(** [v.get(k, default)]: only a [dict] has the method. *)
Definition py_get (v : json) (k : str) (default : json) : result json :=
  match v with
  | JDict d => Ok (dict_get d k default)
  | _ => no_attribute v (lit "get")
  end.

(** The items a [for] loop over [v] visits: the elements of a list, the
    keys of a dict, the characters of a string. *)
Definition py_iter (v : json) : result (list json) :=
  match v with
  | JList l => Ok l
  | JDict d => Ok (map (λ kv, JStr kv.1) d)
  | JStr s => Ok (map (λ c, JStr [c]) s)
  | _ => Raise (TypeError
           (lit "'" ++ type_name v ++ lit "' object is not iterable"))
  end.

End Py.
Import Py.

(** ** The input file *)

(** What opening and parsing [blackbox_roadmap_with_backlog.json]
    gives: the file is missing, it is not JSON, something else goes
    wrong (the file cannot be read or decoded, a number is too long),
    or it holds a value. *)
Inductive source_file :=
| Missing (msg : str)
| Malformed (msg : str)
| Unreadable (x : exn)
| Parsed (data : json).

(** [json.load(f)] inside the [try] of [load_tasks]; for the two
    exceptions it handles, a diagnostic goes to the error stream and the
    exception is raised again; any other one passes through. *)
Definition read_source (f : source_file) : result json :=
  match f with
  | Missing m => Raise (FileNotFoundError m)
  | Malformed m => Raise (JSONDecodeError m)
  | Unreadable x => Raise x
  | Parsed data => Ok data
  end.

(** A normalized task, the dictionary [generate.load_tasks] appends. *)
Record task := Task {
  title : str;
  description : str;
  phase : str;
  status : str;
}.

#[global] Instance task_eq_dec : EqDecision task.
Proof. solve_decision. Defined.

(** ** The [csv] module, excel dialect

    [csv.writer(f)] and [csv.reader(f)] with their defaults: delimiter
    a comma, the double quote as quote character, doubled quotes, [QUOTE_MINIMAL], line
    terminator [\r\n], no escape character, not strict.  The reader is
    the state machine of CPython's [_csv], without the states only an
    escape character reaches and with the field size limit lifted.
    Text goes to the file and comes back as it is: the encoding of the
    file is below this model. *)

Module Csv.

(** *** Writer *)

(** The characters that force a field into quotes. *)
Definition special (c : char) : bool :=
  bool_decide (c = COMMA) || bool_decide (c = DQUOTE)
  || bool_decide (c = CR) || bool_decide (c = LF).

Definition needs_quotes (s : str) : bool := existsb special s.

(** A quote inside a field is written twice. *)
Fixpoint escape (s : str) : str :=
  match s with
  | [] => []
  | c :: s' =>
      if bool_decide (c = DQUOTE) then DQUOTE :: DQUOTE :: escape s'
      else c :: escape s'
  end.

Definition write_field (s : str) : str :=
  if needs_quotes s then DQUOTE :: escape s ++ [DQUOTE] else s.

(** [w.writerow(row)]: the text appended to the file.  A row made of one
    empty field is written as a pair of quotes. *)
Definition writerow (row : list str) : str :=
  match row with
  | [ [] ] => [DQUOTE; DQUOTE]
  | _ => join [COMMA] (map write_field row)
  end ++ [CR; LF].

Definition writerows (rows : list (list str)) : str :=
  concat (map writerow rows).

(** *** Reader *)

Inductive parser_state :=
| START_RECORD
| START_FIELD
| IN_FIELD
| IN_QUOTED_FIELD
| QUOTE_IN_QUOTED_FIELD
| EAT_CRNL.

#[global] Instance parser_state_eq_dec : EqDecision parser_state.
Proof. solve_decision. Defined.

Record reader := Reader {
  state : parser_state;
  field : str;
  fields : list str;
}.

(** [parse_reset] *)
Definition reset : reader := Reader START_RECORD [] [].

Definition parse_save_field (r : reader) : reader :=
  Reader (state r) [] (fields r ++ [field r]).

Definition parse_add_char (r : reader) (c : char) : reader :=
  Reader (state r) (field r ++ [c]) (fields r).

Definition set_state (st : parser_state) (r : reader) : reader :=
  Reader st (field r) (fields r).

Definition is_newline (c : char) : bool :=
  bool_decide (c = LF) || bool_decide (c = CR).

(** The two cases of [START_FIELD], shared with [START_RECORD], which
    falls through to it on an ordinary character. *)
Definition start_field (r : reader) (c : char) : reader :=
  if is_newline c then set_state EAT_CRNL (parse_save_field r)
  else if bool_decide (c = DQUOTE) then set_state IN_QUOTED_FIELD r
  else if bool_decide (c = COMMA) then parse_save_field r
  else set_state IN_FIELD (parse_add_char r c).

(** [parse_process_char]; the character [None] is the end-of-line mark
    [EOL] sent after each line, and the result [None] is [_csv.Error]. *)
Definition parse_process_char (r : reader) (c : option char)
  : option reader :=
  match state r, c with
  | START_RECORD, None => Some r
  | START_RECORD, Some c =>
      if is_newline c then Some (set_state EAT_CRNL r)
      else Some (start_field (set_state START_FIELD r) c)
  | START_FIELD, None => Some (set_state START_RECORD (parse_save_field r))
  | START_FIELD, Some c => Some (start_field r c)
  | IN_FIELD, None => Some (set_state START_RECORD (parse_save_field r))
  | IN_FIELD, Some c =>
      if is_newline c then Some (set_state EAT_CRNL (parse_save_field r))
      else if bool_decide (c = COMMA)
      then Some (set_state START_FIELD (parse_save_field r))
      else Some (parse_add_char r c)
  | IN_QUOTED_FIELD, None => Some r
  | IN_QUOTED_FIELD, Some c =>
      if bool_decide (c = DQUOTE) then Some (set_state QUOTE_IN_QUOTED_FIELD r)
      else Some (parse_add_char r c)
  | QUOTE_IN_QUOTED_FIELD, None =>
      Some (set_state START_RECORD (parse_save_field r))
  | QUOTE_IN_QUOTED_FIELD, Some c =>
      if bool_decide (c = DQUOTE)
      then Some (set_state IN_QUOTED_FIELD (parse_add_char r c))
      else if bool_decide (c = COMMA)
      then Some (set_state START_FIELD (parse_save_field r))
      else if is_newline c
      then Some (set_state EAT_CRNL (parse_save_field r))
      else Some (set_state IN_FIELD (parse_add_char r c))
  | EAT_CRNL, None => Some (set_state START_RECORD r)
  | EAT_CRNL, Some c => if is_newline c then Some r else None
  end.

(** The characters of one line, then [EOL]. *)
Fixpoint feed_chars (r : reader) (line : str) : option reader :=
  match line with
  | [] => Some r
  | c :: line' =>
      match parse_process_char r (Some c) with
      | Some r' => feed_chars r' line'
      | None => None
      end
  end.

Definition feed_line (r : reader) (line : str) : option reader :=
  match feed_chars r line with
  | Some r' => parse_process_char r' None
  | None => None
  end.

(** Does the character [c], followed by [rest], end a line?  A file
    opened with [newline=''] ends its lines at [\n], at [\r\n] and at a
    lone [\r], and keeps the terminator. *)
Definition ends_line (c : char) (rest : str) : bool :=
  bool_decide (c = LF)
  || bool_decide (c = CR) && negb (bool_decide (head rest = Some LF)).

(** The lines a file object opened with [newline=''] iterates over;
    [cur] is the line being collected. *)
Fixpoint split_lines (cur : str) (text : str) : list str :=
  match text with
  | [] => if bool_decide (cur = []) then [] else [cur]
  | c :: rest =>
      if ends_line c rest then (cur ++ [c]) :: split_lines [] rest
      else split_lines (cur ++ [c]) rest
  end.

(** [Reader_iternext], called until the input is exhausted: lines are
    fed until the machine is back in [START_RECORD], which completes a
    row.  At the end of the input a pending field closes the last row. *)
Fixpoint read_rows (r : reader) (lines : list str)
  : option (list (list str)) :=
  match lines with
  | [] =>
      if negb (bool_decide (field r = []))
         || bool_decide (state r = IN_QUOTED_FIELD)
      then Some [fields (parse_save_field r)]
      else Some []
  | line :: lines' =>
      match feed_line r line with
      | None => None
      | Some r' =>
          if bool_decide (state r' = START_RECORD)
          then cons (fields r') <$> read_rows reset lines'
          else read_rows r' lines'
      end
  end.

(** [list(csv.reader(f))] on a file holding [text]. *)
Definition read (text : str) : option (list (list str)) :=
  read_rows reset (split_lines [] text).

(** The same reader as one pass over the text: [v] is the machine after
    the characters of the current line read so far, and [pending] says
    whether there are any.  It is shown equal to [read] below. *)
Fixpoint scan (v : reader) (pending : bool) (text : str)
  : option (list (list str)) :=
  match text with
  | [] => if pending then read_rows v [ [] ] else read_rows v []
  | c :: rest =>
      match parse_process_char v (Some c) with
      | None => None
      | Some v' =>
          if ends_line c rest then
            match parse_process_char v' None with
            | None => None
            | Some r' =>
                if bool_decide (state r' = START_RECORD)
                then cons (fields r') <$> scan reset false rest
                else scan r' false rest
            end
          else scan v' true rest
      end
  end.

(** Where the machine stands after the text of a field [f]: after its
    closing quote, inside it, or still at its start when it is empty. *)
Definition after_field (st : parser_state) (f : str) : Prop :=
  st = QUOTE_IN_QUOTED_FIELD ∨ st = IN_FIELD ∨ (st = START_FIELD ∧ f = []).

End Csv.

(** ** scripts/roadmap/generate.py *)

Module Generate.

(** *** load_tasks *)

(** The body of the loop of [load_tasks] on one dictionary; [None]
    stands for [continue]. *)
Definition normalize (t : dict) : result (option task) :=
  title ← py_strip (py_or (dict_get t (lit "title") JNull) (JStr []));
  desc ← py_strip
           (py_or (dict_get t (lit "description") JNull)
              (py_or (dict_get t (lit "desc") JNull)
                 (py_or (dict_get t (lit "desciptio") JNull) (JStr []))));
  phase ← py_strip
            (py_or (dict_get t (lit "phase") JNull) (JStr (lit "Unassigned")));
  status ← py_strip
             (py_or (dict_get t (lit "status") JNull) (JStr (lit "To Do")));
  if bool_decide (title = []) then mret None
  else mret (Some (Task title desc phase status)).

(** [for t in tasks: ...], appending to [norm]. *)
Fixpoint normalize_all (items : list json) (norm : list task)
  : result (list task) :=
  match items with
  | [] => mret norm
  | JDict t :: rest =>
      r ← normalize t;
      normalize_all rest
        (match r with Some x => norm ++ [x] | None => norm end)
  | _ :: rest => normalize_all rest norm
  end.

(** [load_tasks] from the parsed value on. *)
Definition load_data (data : json) : result (list task) :=
  tasks ← py_get data (lit "tasks") data;
  items ← py_iter tasks;
  normalize_all items [].

Definition load_tasks (f : source_file) : result (list task) :=
  data ← read_source f;
  load_data data.

(** What [load_tasks] prints on the error stream before raising again;
    [src] is the path of the source file. *)
Definition load_diagnostics (src : str) (f : source_file) : list str :=
  match f with
  | Missing _ => [lit "Error: " ++ src ++ lit " not found"]
  | Malformed m => [lit "Error: Invalid JSON in " ++ src ++ lit ": " ++ m]
  | Unreadable _ | Parsed _ => []
  end.

(** *** write_markdown *)

Section Markdown.

(** [str.lower], which follows the Unicode case tables. *)
Variable lower : str → str.

(** [(a["status"], a["title"].lower()) < (b["status"], b["title"].lower())] *)
Definition key_ltb (a b : task) : bool :=
  if bool_decide (status a = status b)
  then str_ltb (lower (title a)) (lower (title b))
  else str_ltb (status a) (status b).

(** [list.sort] is stable: an element goes before the first one that is
    not smaller. *)
Fixpoint insert_sorted (x : task) (l : list task) : list task :=
  match l with
  | [] => [x]
  | y :: l' => if key_ltb y x then y :: insert_sorted x l' else x :: l
  end.

Definition sort_tasks (l : list task) : list task :=
  foldr insert_sorted [] l.

Definition PHASES : list str := [lit "Now"; lit "Next"; lit "Later"].

(** [{"Now": [], "Next": [], "Later": [], "Unassigned": []}] *)
Definition by_phase_init : gmap (list N) (list task) :=
  <[lit "Now" := []]> (<[lit "Next" := []]> (<[lit "Later" := []]>
    (<[lit "Unassigned" := []]> ∅))).

(** [by_phase.setdefault(t["phase"], []).append(t)] *)
Definition add_task (m : gmap (list N) (list task)) (t : task)
  : gmap (list N) (list task) :=
  <[phase t := default [] (m !! phase t) ++ [t]]> m.

Definition group (tasks : list task) : gmap (list N) (list task) :=
  foldl add_task by_phase_init tasks.

(** [by_phase] once every bucket is sorted. *)
Definition by_phase (tasks : list task) : gmap (list N) (list task) :=
  sort_tasks <$> group tasks.

(** [by_phase.get(p)], with [None] read as no task. *)
Definition bucket (m : gmap (list N) (list task)) (p : str) : list task :=
  default [] (m !! p).

(** The separator of the source literal: a space, U+00E2, U+20AC,
    U+201D, a space. *)
Definition SEPARATOR : str := [32; 226; 8364; 8221; 32]%N.

Definition single_line (d : str) : str := strip (replace_char LF SPACE d).

(** [short], lines 104 to 106. *)
Definition short_description (d : str) : str :=
  let short := single_line d in
  if bool_decide (160 < length short) then take 157 short ++ lit "..."
  else short.

(** One entry of [md] for a task. *)
Definition md_line (t : task) : str :=
  let line := lit "- " ++ title t ++ SEPARATOR ++ status t in
  if bool_decide (description t = []) then line
  else line ++ LF :: lit "  - " ++ short_description (description t).

(** One entry of [kanban] for a task. *)
Definition kanban_line (t : task) : str :=
  lit "- [" ++ status t ++ lit "] " ++ title t.

(** The entries one pass of [for phase in ("Now", "Next", "Later")]
    appends. *)
Definition section (render : task → str) (m : gmap (list N) (list task))
    (p : str) : list str :=
  match bucket m p with
  | [] => []
  | b => (lit "## " ++ p) :: map render b ++ [[]]
  end.

Definition md_preamble : list str :=
  [ lit "# Roadmap"; [];
    lit "Source: `blackbox_roadmap_with_backlog.json`. Phases reflect delivery priority. Update with `python3 scripts/roadmap/generate.py`.";
    [] ].

Definition kanban_preamble : list str :=
  [ lit "# Roadmap Kanban"; [];
    lit "Visual grouping by phase. Use alongside `docs/ROADMAP.md`.";
    [] ].

(** The list [md] when it is joined. *)
Definition md_entries (tasks : list task) : list str :=
  md_preamble ++ concat (map (section md_line (by_phase tasks)) PHASES).

(** The list [kanban] when it is joined. *)
Definition kanban_entries (tasks : list task) : list str :=
  kanban_preamble
  ++ concat (map (section kanban_line (by_phase tasks)) PHASES).

(** The text of [docs/ROADMAP.md]. *)
Definition roadmap_md (tasks : list task) : str :=
  join [LF] (md_entries tasks) ++ [LF].

(** The text of [docs/ROADMAP_KANBAN.md]. *)
Definition roadmap_kanban_md (tasks : list task) : str :=
  join [LF] (kanban_entries tasks) ++ [LF].

End Markdown.

(** *** write_csv *)

Definition roadmap_header : list str :=
  [lit "title"; lit "description"; lit "phase"; lit "status"].

Definition roadmap_row (t : task) : list str :=
  [title t; description t; phase t; status t].

Definition roadmap_rows (tasks : list task) : list (list str) :=
  roadmap_header :: map roadmap_row tasks.

Definition issues_header : list str := [lit "Title"; lit "Body"; lit "Labels"].

Definition issues_row (t : task) : list str :=
  let labels := [lit "phase:" ++ phase t; lit "status:" ++ status t] in
  let body :=
    if bool_decide (description t = []) then lit "Imported from roadmap."
    else description t in
  [title t; body; join [COMMA] labels].

Definition issues_rows (tasks : list task) : list (list str) :=
  issues_header :: map issues_row tasks.

(** The [writerow] calls on a file opened with [encoding="utf-8"]: each
    row is written as it comes, so the row that cannot be encoded
    raises and leaves in the file the rows written before it.  The
    result is the text the file holds when it is closed, and the
    exception, if any. *)
Fixpoint write_rows (rows : list (list str)) : str * option exn :=
  match rows with
  | [] => ([], None)
  | row :: rest =>
      if encodable (Csv.writerow row)
      then (Csv.writerow row ++ (write_rows rest).1, (write_rows rest).2)
      else ([], Some (encode_error (Csv.writerow row)))
  end.

(** *** The files of a run *)

Inductive file :=
| docs_ROADMAP_md
| docs_ROADMAP_KANBAN_md
| docs_roadmap_csv
| tools_github_issues_import_csv.

#[global] Instance file_eq_dec : EqDecision file.
Proof. solve_decision. Defined.

(** The world [main] runs in: the path and content of the source file,
    the exception, if any, that creating the output directories raises,
    and the exception, if any, that opening an output file for writing
    raises. *)
Record env := Env {
  src_path : str;
  source : source_file;
  mkdir_error : option exn;
  open_error : file → option exn;
}.

(** The files a run has opened for writing, in that order, each with
    the text it holds afterwards. *)
Definition disk := list (file * list N).

(** [path.write_text(text, encoding="utf-8")]: once the file is open it
    exists and is empty; the text is then encoded as a whole. *)
Definition write_text (e : env) (f : file) (text : str) (d : disk)
  : result unit * disk :=
  match open_error e f with
  | Some x => (Raise x, d)
  | None =>
      if encodable text then (Ok (), d ++ [(f, text)])
      else (Raise (encode_error text), d ++ [(f, [])])
  end.

(** [with path.open("w", newline="", encoding="utf-8") as f], a
    [csv.writer] on [f] and one [writerow] per row. *)
Definition write_csv_file (e : env) (f : file) (rows : list (list str))
    (d : disk) : result unit * disk :=
  match open_error e f with
  | Some x => (Raise x, d)
  | None =>
      (match (write_rows rows).2 with
       | Some x => Raise x
       | None => Ok ()
       end,
       d ++ [(f, (write_rows rows).1)])
  end.

(** [write_markdown], for its two files. *)
Definition write_markdown (lower : str → str) (e : env) (tasks : list task)
    (d : disk) : result unit * disk :=
  match write_text e docs_ROADMAP_md (roadmap_md lower tasks) d with
  | (Ok _, d1) =>
      write_text e docs_ROADMAP_KANBAN_md (roadmap_kanban_md lower tasks) d1
  | (Raise x, d1) => (Raise x, d1)
  end.

(** [write_csv] *)
Definition write_csv (e : env) (tasks : list task) (d : disk)
  : result unit * disk :=
  match write_csv_file e docs_roadmap_csv (roadmap_rows tasks) d with
  | (Ok _, d1) =>
      write_csv_file e tools_github_issues_import_csv (issues_rows tasks) d1
  | (Raise x, d1) => (Raise x, d1)
  end.

(** *** main *)

(** The four files of a run that wrote them all. *)
Record artifacts := Artifacts {
  ROADMAP_md : str;
  ROADMAP_KANBAN_md : str;
  roadmap_csv_file : str;
  issues_import_csv_file : str;
}.

(** What a run did: [written] holds the four files when all were
    written, and [files] what was opened for writing in any case. *)
Record run := Run {
  exit_code : Z;
  stdout : list str;
  stderr : list str;
  written : option artifacts;
  files : disk;
}.

Definition ensure_dirs (e : env) : result unit :=
  match mkdir_error e with
  | Some x => Raise x
  | None => Ok ()
  end.

(** The [except Exception] of [main]; [diagnostics] is what was
    printed on the error stream before. *)
Definition failed (diagnostics : list str) (x : exn) (d : disk) : run :=
  Run 1 [] (diagnostics ++ [lit "Error generating roadmap: " ++ exn_message x])
    None d.

(** The line [main] prints at the end. *)
Definition report (tasks : list task) : str :=
  lit "Generated roadmap assets for " ++ str_of_nat (length tasks)
  ++ lit " tasks under docs/ and tools/github/.".

Definition main (lower : str → str) (e : env) : run :=
  match ensure_dirs e with
  | Raise x => failed [] x []
  | Ok _ =>
      match load_tasks (source e) with
      | Raise x => failed (load_diagnostics (src_path e) (source e)) x []
      | Ok tasks =>
          match write_markdown lower e tasks [] with
          | (Raise x, d) => failed [] x d
          | (Ok _, d) =>
              match write_csv e tasks d with
              | (Raise x, d') => failed [] x d'
              | (Ok _, d') =>
                  if encodable (report tasks)
                  then
                    Run 0 [report tasks] []
                      (Some (Artifacts (roadmap_md lower tasks)
                               (roadmap_kanban_md lower tasks)
                               (write_rows (roadmap_rows tasks)).1
                               (write_rows (issues_rows tasks)).1))
                      d'
                  else failed [] (encode_error (report tasks)) d'
              end
          end
      end
  end.

End Generate.

(** ** scripts/roadmap/create_github_issues.py *)

Module Issues.

(** *** load_tasks *)

(** The three [setdefault] calls on one dictionary, which is changed
    in place. *)
Definition fill_defaults (t : dict) : dict :=
  let t1 :=
    dict_setdefault t (lit "description")
      (py_or (dict_get t (lit "desc") JNull)
         (py_or (dict_get t (lit "desciptio") JNull) (JStr []))) in
  let t2 := dict_setdefault t1 (lit "phase") (JStr (lit "Unassigned")) in
  dict_setdefault t2 (lit "status") (JStr (lit "To Do")).

(** The first loop over [tasks]: what each item has become. *)
Definition fill_item (v : json) : json :=
  match v with
  | JDict t => JDict (fill_defaults t)
  | _ => v
  end.

(** [[t for t in tasks if isinstance(t, dict) and t.get("title")]] *)
Fixpoint titled (items : list json) : list (list (list N * json)) :=
  match items with
  | [] => []
  | JDict t :: rest =>
      if truthy (dict_get t (lit "title") JNull) then t :: titled rest
      else titled rest
  | _ :: rest => titled rest
  end.

(** [load_tasks] from the parsed value on. *)
Definition load_data (data : json) : result (list (list (list N * json))) :=
  tasks ← py_get data (lit "tasks") data;
  items ← py_iter tasks;
  mret (titled (map fill_item items)).

Definition load_tasks (f : source_file)
  : result (list (list (list N * json))) :=
  data ← read_source f;
  load_data data.

(** *** main *)

(** How one [subprocess.run(cmd, check=True, capture_output=True)]
    ends; each exception carries its [str(e)]. *)
Inductive run_outcome :=
| Completed
| CalledProcessError (msg : str)
| ToolNotFound (msg : str)
| OtherError (msg : str).

(** The command line: [--repo] (or [GH_REPO]) and [--dry-run]. *)
Record args := Args {
  repo : option str;
  dry_run : bool;
}.

(** The world: the source file, and the outcome of the [n]-th
    subprocess call on a given command. *)
Record env := Env {
  src_path : str;
  source : source_file;
  gh : nat → list str → run_outcome;
}.

(** What a run has done so far.  The output stream takes UTF-8 and
    raises on what cannot be encoded; [stdout] holds the lines it was
    given, and last the piece of a line whose rest could not be
    written.  The error stream escapes what it cannot encode and never
    raises; [stderr] holds the lines printed on it, as text. *)
Record world := World {
  stdout : list str;
  stderr : list str;
  calls : list (list str);   (* the commands executed, in order *)
  created : nat;
}.

Definition put (text : str) (w : world) : world :=
  World (stdout w ++ [text]) (stderr w) (calls w) (created w).

(** [print(line)]: the line is encoded as a whole before anything of
    it is written. *)
Definition print (line : str) (w : world) : exn * world + world :=
  if encodable line then inr (put line w)
  else inl (encode_error line, w).

(** [print(a, b)]: [a], a space and [b] are written one after the
    other, so that [a] and the space are out when [b] raises. *)
Definition print2 (a b : str) (w : world) : exn * world + world :=
  if encodable a
  then
    if encodable b then inr (put (a ++ SPACE :: b) w)
    else inl (encode_error b, put (a ++ [SPACE]) w)
  else inl (encode_error a, w).

(** [print(line, file=sys.stderr)] *)
Definition eprint (line : str) (w : world) : world :=
  World (stdout w) (stderr w ++ [line]) (calls w) (created w).

(** [subprocess.run(cmd, ...)]: the call is recorded and the oracle
    says how it ends. *)
Definition subprocess_run (e : env) (cmd : list str) (w : world)
  : run_outcome * world :=
  (gh e (length (calls w)) cmd,
   World (stdout w) (stderr w) (calls w ++ [cmd]) (created w)).

Definition count_created (w : world) : world :=
  World (stdout w) (stderr w) (calls w) (S (created w)).

(** [if args.repo] *)
Definition repo_given (a : args) : bool :=
  match repo a with
  | Some r => negb (bool_decide (r = []))
  | None => false
  end.

Definition base_cmd (a : args) : list str :=
  [lit "gh"; lit "issue"; lit "create"]
  ++ (if repo_given a then [lit "--repo"; default [] (repo a)] else []).

(** [t["title"]] *)
Definition getitem (t : dict) (k : str) : result json :=
  if dict_has t k then Ok (dict_get t k JNull)
  else Raise (KeyError (lit "'" ++ k ++ lit "'")).

Section Publisher.

(** [str(v)] as an f-string computes it for a value that is not text. *)
Variable format_value : json → str.

Definition fstr (v : json) : str :=
  match v with
  | JStr s => s
  | _ => format_value v
  end.

(** Lines 103 to 106: the command of one task, and its title. *)
Definition command (a : args) (t : dict) : result (str * list str) :=
  v ← getitem t (lit "title");
  title ← py_strip v;
  body ← py_strip (py_or (dict_get t (lit "description") JNull)
                     (JStr (lit "Imported from roadmap.")));
  let labels :=
    [lit "phase:" ++ fstr (dict_get t (lit "phase") (JStr (lit "Unassigned")));
     lit "status:" ++ fstr (dict_get t (lit "status") (JStr (lit "To Do")))] in
  mret (title,
        base_cmd a ++ [lit "--title"; title; lit "--body"; body;
                       lit "--label"; join [COMMA] labels]).

(** The loop over the tasks.  [inl x] is an exception that leaves the
    loop for the outer handler. *)
Fixpoint publish (e : env) (a : args) (tasks : list (list (list N * json)))
    (w : world) : exn * world + world :=
  match tasks with
  | [] => inr w
  | t :: rest =>
      match command a t with
      | Raise x => inl (x, w)
      | Ok (title, cmd) =>
          if dry_run a
          then
            match print2 (lit "DRY:") (join [SPACE] cmd) w with
            | inl xw => inl xw
            | inr w1 => publish e a rest w1
            end
          else
            match subprocess_run e cmd w with
            | (Completed, w1) =>
                match print (lit "Created issue: " ++ title)
                        (count_created w1) with
                | inl xw => inl xw
                | inr w2 => publish e a rest w2
                end
            | (CalledProcessError m, w1) =>
                publish e a rest
                  (eprint (lit "Failed to create issue for '" ++ title
                           ++ lit "': " ++ m) w1)
            | (ToolNotFound m, w1) => inl (OSError m, w1)
            | (OtherError m, w1) => inl (OSError m, w1)
            end
      end
  end.

Definition start : world := World [] [] [] 0.

(** The diagnostics [load_tasks] prints before raising again. *)
Definition load_diagnostics (src : str) (f : source_file) : list str :=
  match f with
  | Missing _ => [lit "Error: " ++ src ++ lit " not found"]
  | Malformed m => [lit "Error: Invalid JSON in " ++ src ++ lit ": " ++ m]
  | Unreadable _ | Parsed _ => []
  end.

(** The outer [except Exception]. *)
Definition failed (x : exn) (w : world) : Z * world :=
  (1%Z, eprint (lit "Error: " ++ exn_message x) w).

(** The command that checks that [gh] can be run. *)
Definition probe : list str := [lit "gh"; lit "--version"].

(** [main]: the exit code and what was done. *)
Definition main (e : env) (a : args) : Z * world :=
  match load_tasks (source e) with
  | Raise x =>
      failed x
        (World [] (load_diagnostics (src_path e) (source e)) [] 0)
  | Ok tasks =>
      match tasks with
      | [] =>
          match print (lit "No tasks found.") start with
          | inl (x, w) => failed x w
          | inr w => (1%Z, w)
          end
      | _ =>
          match subprocess_run e probe start with
          | (CalledProcessError _, w) | (ToolNotFound _, w) =>
              (1%Z, eprint (lit "Error: GitHub CLI (gh) not found. Install from https://cli.github.com/") w)
          | (OtherError m, w) => failed (OSError m) w
          | (Completed, w) =>
              if negb (repo_given a) && negb (dry_run a)
              then (1%Z, eprint (lit "Error: --repo must be specified or GH_REPO environment variable set") w)
              else
                match publish e a tasks w with
                | inl (x, w') => failed x w'
                | inr w' =>
                    match print (lit "Done. Created "
                                 ++ str_of_nat (created w')
                                 ++ lit " issues.") w' with
                    | inl (x, w'') => failed x w''
                    | inr w'' => (0%Z, w'')
                    end
                end
          end
      end
  end.

End Publisher.

(** *** What a batch is expected to report *)




(** One diagnostic per command that ended with a non-zero exit. *)
Fixpoint diagnostics (os : list (list N * run_outcome)) : list str :=
  match os with
  | [] => []
  | (title, CalledProcessError m) :: rest =>
      (lit "Failed to create issue for '" ++ title ++ lit "': " ++ m)
      :: diagnostics rest
  | _ :: rest => diagnostics rest
  end.

End Issues.

(** ** find_repo_root, the same in both scripts *)

Module RepoRoot.

Section Walk.

(** A resolved path is the list of its components, the last one first;
    the empty list is the root of the file system, the only path that
    is its own parent.  [has_roadmap cur] is
    [(cur / "blackbox_roadmap_with_backlog.json").exists()]. *)
Variable has_roadmap : list (list N) → bool.

(** The [while cur != cur.parent] loop, from [cur] upwards; [start] is
    returned when the loop ends at the root. *)
Fixpoint walk_up (start cur : list (list N)) : list (list N) :=
  match cur with
  | [] => start
  | _ :: parent => if has_roadmap cur then cur else walk_up start parent
  end.

Definition find_repo_root (start : list (list N)) : list (list N) :=
  walk_up start start.

End Walk.

End RepoRoot.

(** ** Vocabulary of the properties below *)

(** The sort key of [write_markdown]: [(x["status"], x["title"].lower())]. *)
Definition sort_key (lower : list N → list N) (t : task)
  : list N * list N :=
  (status t, lower (title t)).

(** A text that neither starts nor ends with a white-space character. *)
Definition no_outer_space (s : list N) : Prop :=
  (∀ c, head s = Some c → is_space c = false)
  ∧ (∀ c, last s = Some c → is_space c = false).

(** The record [generate.load_tasks] appends for one item of the input,
    if any: the item is a dictionary, [normalize] returns, and the
    trimmed title is not empty. *)
Definition emitted (v : json) : option task :=
  match v with
  | JDict t =>
      match Generate.normalize t with
      | Ok (Some r) => Some r
      | _ => None
      end
  | _ => None
  end.

Definition is_dict (v : json) : bool :=
  match v with JDict _ => true | _ => false end.

(** The world the loop of the publisher stops in, whether it ends or an
    exception leaves it. *)
Definition final (res : exn * Issues.world + Issues.world) : Issues.world :=
  match res with
  | inl (_, w) => w
  | inr w => w
  end.




(** The lines of a text, [text.split("\n")]: what stands between two
    line feeds, before the first and after the last. *)
Fixpoint lines_of (s : list N) : list (list N) :=
  match s with
  | [] => [[]]
  | c :: s' =>
      if (c =? LF)%N then [] :: lines_of s'
      else
        match lines_of s' with
        | l :: ls => (c :: l) :: ls
        | [] => [[c]]
        end
  end.


(** The four files of the generator in the order it writes them, each
    with the text built for it. *)
Definition outputs (lower : list N → list N) (tasks : list task)
  : list (Generate.file * list N) :=
  [(Generate.docs_ROADMAP_md, Generate.roadmap_md lower tasks);
   (Generate.docs_ROADMAP_KANBAN_md, Generate.roadmap_kanban_md lower tasks);
   (Generate.docs_roadmap_csv, Csv.writerows (Generate.roadmap_rows tasks));
   (Generate.tools_github_issues_import_csv,
    Csv.writerows (Generate.issues_rows tasks))].

(** [str.lower] on ASCII text, an instance for examples. *)
Definition ascii_lower (s : str) : str :=
  map (λ c, if ((65 <=? c) && (c <=? 90))%N then (c + 32)%N else c) s.

(** A rendering of non-text values, an instance for examples. *)
Definition format_none (v : json) : str := lit "None".

(** * Properties *)

(** ** What the specification says of the description

    The description is the first non-empty of [description], [desc]
    and [desciptio], else the empty string.  A value that is not text
    counts as absent. *)


Definition candidates (t : list (list N * json)) : list json :=
  [dict_get t (lit "description") JNull; dict_get t (lit "desc") JNull;
   dict_get t (lit "desciptio") JNull].


(** The four values [generate.load_tasks] trims in a dictionary are
    text: for each key, the value selected by the chain of [or], which
    is the default when everything before it is falsy. *)
Definition selects_text (t : list (list N * json)) : Prop :=
  is_str (py_or (dict_get t (lit "title") JNull) (JStr [])) = true
  ∧ is_str (foldr py_or (JStr []) (candidates t)) = true
  ∧ is_str (py_or (dict_get t (lit "phase") JNull)
              (JStr (lit "Unassigned"))) = true
  ∧ is_str (py_or (dict_get t (lit "status") JNull)
              (JStr (lit "To Do"))) = true.

(** A decidable fact about closed texts, by computation. *)
Ltac closed := apply (bool_decide_unpack _); vm_compute; exact I.

(** ** The csv reader inverts the csv writer *)

Section CsvRoundTrip.
Import Csv.

Lemma feed_chars_app r a b :
  feed_chars r (a ++ b) = feed_chars r a ≫= λ r', feed_chars r' b.
Proof.
  revert r; induction a as [|c a IH]; intros r; simpl; [done|].
  destruct (parse_process_char r (Some c)); simpl; [apply IH|done].
Qed.

Lemma read_rows_stuck text : ∀ cur r,
  feed_chars r cur = None → read_rows r (split_lines cur text) = None.
Proof.
  induction text as [|c rest IH]; intros cur r Hcur; simpl.
  - case_bool_decide as Hc; [subst; discriminate|].
    simpl. unfold feed_line. by rewrite Hcur.
  - assert (feed_chars r (cur ++ [c]) = None) as Hc
      by (rewrite feed_chars_app, Hcur; done).
    destruct (ends_line c rest); [|by apply IH].
    simpl. unfold feed_line. by rewrite Hc.
Qed.

(** Reading line by line and scanning the text agree. *)
Lemma read_rows_scan text : ∀ cur r v,
  feed_chars r cur = Some v →
  read_rows r (split_lines cur text)
  = scan v (negb (bool_decide (cur = []))) text.
Proof.
  induction text as [|c rest IH]; intros cur r v Hcur.
  - simpl split_lines. case_bool_decide as Hc; simpl.
    + subst cur. simpl in Hcur. by inversion Hcur.
    + unfold feed_line. rewrite Hcur. simpl.
      destruct (parse_process_char v None); done.
  - simpl split_lines. simpl scan.
    assert (feed_chars r (cur ++ [c])
            = parse_process_char v (Some c)) as Hc.
    { rewrite feed_chars_app, Hcur. simpl.
      destruct (parse_process_char v (Some c)); done. }
    destruct (parse_process_char v (Some c)) as [v'|] eqn:Hv.
    + destruct (ends_line c rest).
      * simpl read_rows. unfold feed_line. rewrite Hc.
        destruct (parse_process_char v' None) as [r'|]; [|done].
        case_bool_decide.
        -- by rewrite (IH [] reset reset).
        -- by rewrite (IH [] r' r').
      * rewrite (IH _ _ v' Hc).
        replace (bool_decide (cur ++ [c] = [])) with false; [done|].
        symmetry. apply bool_decide_eq_false. by destruct cur.
    + destruct (ends_line c rest).
      * simpl read_rows. unfold feed_line. by rewrite Hc.
      * by apply read_rows_stuck.
Qed.

Lemma read_scan text : read text = scan reset false text.
Proof. unfold read. by rewrite (read_rows_scan text [] reset reset). Qed.

(** Whether there are pending characters only matters at the end. *)
Lemma scan_pending v p q text : text ≠ [] → scan v p text = scan v q text.
Proof. by destruct text. Qed.

Lemma special_false c :
  special c = false → c ≠ COMMA ∧ c ≠ DQUOTE ∧ c ≠ CR ∧ c ≠ LF.
Proof.
  unfold special. intros H.
  repeat (apply orb_false_elim in H as [H ?]).
  repeat split; by eapply bool_decide_eq_false_1.
Qed.

Lemma ends_line_plain c rest : c ≠ CR → c ≠ LF → ends_line c rest = false.
Proof.
  intros. unfold ends_line.
  by rewrite (bool_decide_eq_false_2 (c = LF)),
       (bool_decide_eq_false_2 (c = CR)).
Qed.

Lemma is_newline_plain c : c ≠ CR → c ≠ LF → is_newline c = false.
Proof.
  intros. unfold is_newline.
  by rewrite (bool_decide_eq_false_2 (c = LF)),
       (bool_decide_eq_false_2 (c = CR)).
Qed.

(** An unquoted field is copied character by character. *)
Lemma scan_unquoted s : ∀ fld done p text,
  needs_quotes s = false → text ≠ [] →
  scan (Reader IN_FIELD fld done) p (s ++ text)
  = scan (Reader IN_FIELD (fld ++ s) done) p text.
Proof.
  induction s as [|c s IH]; intros fld done p text Hs Ht.
  - by rewrite app_nil_r.
  - simpl in Hs. apply orb_false_elim in Hs as [Hc Hs].
    apply special_false in Hc as (? & ? & ? & ?).
    change ((c :: s) ++ text) with (c :: (s ++ text)).
    simpl scan. unfold parse_process_char; simpl state.
    rewrite is_newline_plain, ends_line_plain by done.
    rewrite (bool_decide_eq_false_2 (c = COMMA)) by done.
    unfold parse_add_char; simpl.
    rewrite (IH _ _ true) by done.
    rewrite <- app_assoc. by apply scan_pending.
Qed.

(** Inside quotes every character is copied, a doubled quote once; a
    line that ends there leaves the machine where it is. *)
Lemma scan_quoted s : ∀ fld done p text,
  text ≠ [] →
  scan (Reader IN_QUOTED_FIELD fld done) p (escape s ++ DQUOTE :: text)
  = scan (Reader QUOTE_IN_QUOTED_FIELD (fld ++ s) done) true text.
Proof.
  induction s as [|c s IH]; intros fld done p text Ht.
  - rewrite app_nil_r. by simpl.
  - simpl escape. case_bool_decide as Hc.
    + subst c.
      change ((DQUOTE :: DQUOTE :: escape s) ++ DQUOTE :: text)
        with (DQUOTE :: DQUOTE :: (escape s ++ DQUOTE :: text)).
      simpl scan. unfold parse_add_char, set_state; simpl.
      rewrite (IH _ _ true) by done. by rewrite <- app_assoc.
    + change ((c :: escape s) ++ DQUOTE :: text)
        with (c :: (escape s ++ DQUOTE :: text)).
      simpl scan. unfold parse_process_char; simpl state.
      rewrite (bool_decide_eq_false_2 (c = DQUOTE)) by done.
      unfold parse_add_char; simpl.
      destruct (ends_line c _); simpl.
      * rewrite (IH _ _ false) by done. by rewrite <- app_assoc.
      * rewrite (IH _ _ true) by done. by rewrite <- app_assoc.
Qed.

Lemma scan_field f done p text :
  text ≠ [] →
  ∃ st, after_field st f ∧
    scan (Reader START_FIELD [] done) p (write_field f ++ text)
    = scan (Reader st f done) true text.
Proof.
  intros Ht. unfold write_field.
  destruct (needs_quotes f) eqn:Hq.
  - exists QUOTE_IN_QUOTED_FIELD. split; [by left|].
    change ((DQUOTE :: escape f ++ [DQUOTE]) ++ text)
      with (DQUOTE :: ((escape f ++ [DQUOTE]) ++ text)).
    rewrite <- app_assoc. simpl scan at 1.
    change (start_field (Reader START_FIELD [] done) DQUOTE)
      with (Reader IN_QUOTED_FIELD [] done).
    by rewrite scan_quoted.
  - destruct f as [|c f].
    + exists START_FIELD. split; [by right; right|].
      by apply scan_pending.
    + exists IN_FIELD. split; [by right; left|].
      simpl in Hq. apply orb_false_elim in Hq as [Hc Hq].
      apply special_false in Hc as (? & ? & ? & ?).
      change ((c :: f) ++ text) with (c :: (f ++ text)).
      simpl scan. unfold parse_process_char, start_field; simpl state.
      rewrite is_newline_plain, ends_line_plain by done.
      rewrite (bool_decide_eq_false_2 (c = COMMA)),
        (bool_decide_eq_false_2 (c = DQUOTE)) by done.
      unfold parse_add_char, set_state; simpl.
      by rewrite scan_unquoted.
Qed.

Lemma scan_comma st f done q text :
  after_field st f →
  scan (Reader st f done) q (COMMA :: text)
  = scan (Reader START_FIELD [] (done ++ [f])) true text.
Proof. by intros [-> | [-> | [-> ->]]]. Qed.

Lemma scan_crlf st f done q text :
  after_field st f →
  scan (Reader st f done) q (CR :: LF :: text)
  = cons (done ++ [f]) <$> scan reset false text.
Proof. by intros [-> | [-> | [-> ->]]]. Qed.

(** The fields of a row, from the start of a field to the end of the
    row. *)
Lemma scan_fields fs : ∀ f done p text,
  scan (Reader START_FIELD [] done) p
    (join [COMMA] (map write_field (f :: fs)) ++ CR :: LF :: text)
  = cons (done ++ f :: fs) <$> scan reset false text.
Proof.
  induction fs as [|g fs IH]; intros f done p text.
  - simpl join.
    destruct (scan_field f done p (CR :: LF :: text)) as (st & Hst & ->);
      [done|].
    by apply scan_crlf.
  - change (join [COMMA] (map write_field (f :: g :: fs)))
      with (write_field f ++ [COMMA] ++ join [COMMA] (map write_field (g :: fs))).
    rewrite <- !app_assoc.
    set (rest := join [COMMA] (map write_field (g :: fs)) ++ CR :: LF :: text).
    change ([COMMA] ++ rest) with (COMMA :: rest).
    destruct (scan_field f done p (COMMA :: rest)) as (st & Hst & ->);
      [done|].
    rewrite (scan_comma st) by done.
    unfold rest. rewrite IH. by rewrite <- app_assoc.
Qed.

(** At the start of a record an ordinary character starts a field. *)
Lemma scan_start_record c text p :
  is_newline c = false →
  scan reset p (c :: text) = scan (Reader START_FIELD [] []) p (c :: text).
Proof.
  intros Hc. simpl. unfold parse_process_char; simpl state. by rewrite Hc.
Qed.

Lemma scan_writerow row text :
  scan reset false (writerow row ++ text)
  = cons row <$> scan reset false text.
Proof.
  unfold writerow.
  destruct row as [|f fs]; [done|].
  destruct f as [|c f].
  - destruct fs as [|g fs]; [done|].
    rewrite <- app_assoc.
    change (join [COMMA] (map write_field ([] :: g :: fs)) ++ [CR; LF] ++ text)
      with (COMMA :: (join [COMMA] (map write_field (g :: fs))
                      ++ CR :: LF :: text)).
    rewrite scan_start_record by done.
    change (COMMA :: (join [COMMA] (map write_field (g :: fs))
                      ++ CR :: LF :: text))
      with (join [COMMA] (map write_field ([] :: g :: fs))
            ++ CR :: LF :: text).
    apply (scan_fields (g :: fs) [] []).
  - rewrite <- app_assoc.
    change ([CR; LF] ++ text) with (CR :: LF :: text).
    change (cons ((c :: f) :: fs) <$> scan reset false text)
      with (cons ([] ++ (c :: f) :: fs) <$> scan reset false text).
    rewrite <- (scan_fields fs (c :: f) [] false text).
    assert (∃ d rest, is_newline d = false ∧
              join [COMMA] (map write_field ((c :: f) :: fs))
              ++ CR :: LF :: text = d :: rest) as (d & rest & Hd & ->).
    { assert (∃ d rest, is_newline d = false ∧
                write_field (c :: f) = d :: rest) as (d & rest & Hd & Hw).
      { unfold write_field. destruct (needs_quotes (c :: f)) eqn:Hq.
        - exists DQUOTE; eexists; split; [done|reflexivity].
        - simpl in Hq. apply orb_false_elim in Hq as [Hc _].
          apply special_false in Hc as (? & ? & ? & ?).
          exists c, f. split; [by apply is_newline_plain|done]. }
      exists d. destruct fs as [|g fs].
      - simpl join. rewrite Hw. eexists; split; [done|reflexivity].
      - change (join [COMMA] (map write_field ((c :: f) :: g :: fs)))
          with (write_field (c :: f) ++ [COMMA]
                ++ join [COMMA] (map write_field (g :: fs))).
        rewrite Hw. eexists; split; [done|reflexivity]. }
    by apply scan_start_record.
Qed.

Lemma scan_writerows rows : scan reset false (writerows rows) = Some rows.
Proof.
  induction rows as [|row rows IH]; [done|].
  unfold writerows in *. simpl concat.
  by rewrite scan_writerow, IH.
Qed.

(** Reading back what was written gives the rows that were written. *)
Lemma read_writerows rows : read (writerows rows) = Some rows.
Proof. rewrite read_scan. apply scan_writerows. Qed.

End CsvRoundTrip.

(** ** What UTF-8 can encode *)

Section Encoding.

Lemma encodable_app a b : encodable (a ++ b) = encodable a && encodable b.
Proof. apply forallb_app. Qed.

Lemma encodable_elem s : encodable s = true ↔ ∀ c, c ∈ s → is_surrogate c = false.
Proof.
  unfold encodable. rewrite forallb_forall. split.
  - intros H c Hc%list_elem_of_In. apply negb_true_iff. by apply H.
  - intros H c Hc%list_elem_of_In. apply negb_true_iff. by apply H.
Qed.

Lemma encodable_sub s s' :
  (∀ c, c ∈ s' → c ∈ s) → encodable s = true → encodable s' = true.
Proof. rewrite !encodable_elem. auto. Qed.






(** What is written is the beginning of the whole text. *)
Lemma write_rows_prefix rows :
  (Generate.write_rows rows).1 `prefix_of` Csv.writerows rows.
Proof.
  induction rows as [|row rows IH]; [done|].
  cbn [Generate.write_rows].
  destruct (encodable (Csv.writerow row)).
  - cbn [fst]. by apply prefix_app.
  - apply prefix_nil.
Qed.

(** The rows are all written exactly when nothing is raised. *)
Lemma write_rows_none rows :
  (Generate.write_rows rows).2 = None →
  (Generate.write_rows rows).1 = Csv.writerows rows.
Proof.
  induction rows as [|row rows IH]; [done|].
  cbn [Generate.write_rows].
  destruct (encodable (Csv.writerow row)); [|done].
  cbn [fst snd]. intros H. by rewrite IH.
Qed.

Lemma encodable_digits d :
  encodable (lit (NilEmpty.string_of_uint d)) = true.
Proof. induction d; done. Qed.

Lemma encodable_str_of_nat n : encodable (str_of_nat n) = true.
Proof.
  unfold str_of_nat, NilZero.string_of_uint.
  destruct (Nat.to_uint n) eqn:E; rewrite <- ?E; try done;
    rewrite E; apply (encodable_digits (_ _)).
Qed.

End Encoding.

(** ** Grouping by phase *)

Section Grouping.
Import Generate.
Variable lower : list N → list N.

Lemma insert_sorted_perm x l : insert_sorted lower x l ≡ₚ x :: l.
Proof.
  induction l as [|y l IH]; simpl; [done|].
  destruct (key_ltb lower y x); [|done].
  rewrite IH. apply Permutation_swap.
Qed.

Lemma sort_tasks_perm l : sort_tasks lower l ≡ₚ l.
Proof.
  induction l as [|x l IH]; simpl; [done|].
  by rewrite insert_sorted_perm, IH.
Qed.

Lemma bucket_add_task m t p :
  bucket (add_task m t) p
  = if decide (phase t = p) then bucket m p ++ [t] else bucket m p.
Proof.
  unfold bucket, add_task. destruct (decide (phase t = p)) as [->|Hne].
  - by rewrite lookup_insert_eq.
  - by rewrite lookup_insert_ne.
Qed.

Lemma bucket_foldl tasks : ∀ m p,
  bucket (foldl add_task m tasks) p
  = bucket m p ++ filter (λ t, phase t = p) tasks.
Proof.
  induction tasks as [|t tasks IH]; intros m p; simpl.
  - by rewrite app_nil_r.
  - rewrite IH, bucket_add_task, filter_cons.
    destruct (decide (phase t = p)); [by rewrite <- app_assoc|done].
Qed.

Lemma bucket_init p : bucket by_phase_init p = [].
Proof.
  unfold bucket, by_phase_init.
  repeat (rewrite lookup_insert; case_decide; [done|]).
  by rewrite lookup_empty.
Qed.

(** A bucket holds the tasks of its phase, in input order. *)
Lemma bucket_group tasks p :
  bucket (group tasks) p = filter (λ t, phase t = p) tasks.
Proof. unfold group. by rewrite bucket_foldl, bucket_init. Qed.

Lemma bucket_by_phase tasks p :
  bucket (by_phase lower tasks) p
  = sort_tasks lower (filter (λ t, phase t = p) tasks).
Proof.
  rewrite <- bucket_group. unfold by_phase, bucket.
  rewrite lookup_fmap. by destruct (group tasks !! p).
Qed.

Lemma elem_of_bucket tasks p t :
  t ∈ bucket (by_phase lower tasks) p ↔ t ∈ tasks ∧ phase t = p.
Proof.
  rewrite bucket_by_phase, sort_tasks_perm, list_elem_of_filter. tauto.
Qed.

End Grouping.

(** ** Trimming *)

Section Trimming.

Lemma lstrip_head s c : head (lstrip s) = Some c → is_space c = false.
Proof.
  induction s as [|x s IH]; simpl; [done|].
  destruct (is_space x) eqn:Hx; [done|]. simpl. by intros [= <-].
Qed.

Lemma lstrip_id s :
  (∀ c, head s = Some c → is_space c = false) → lstrip s = s.
Proof. destruct s as [|x s]; simpl; [done|]. intros H. by rewrite H. Qed.

Lemma lstrip_snoc a c :
  is_space c = false → lstrip (a ++ [c]) = lstrip a ++ [c].
Proof.
  intros Hc. induction a as [|x a IH]; simpl; [by rewrite Hc|].
  by destruct (is_space x).
Qed.

Lemma lstrip_suffix s : lstrip s `suffix_of` s.
Proof.
  induction s as [|x s IH]; simpl; [done|].
  destruct (is_space x); [by apply suffix_cons_r|done].
Qed.

Lemma elem_of_lstrip x s : x ∈ lstrip s → x ∈ s.
Proof.
  destruct (lstrip_suffix s) as [k Hk]. rewrite Hk at 2.
  intros. apply elem_of_app. by right.
Qed.

(** Trimming adds no character. *)
Lemma elem_of_strip x s : x ∈ strip s → x ∈ s.
Proof.
  unfold strip, rstrip. rewrite elem_of_reverse.
  intros Hx%elem_of_lstrip. rewrite elem_of_reverse in Hx.
  by apply elem_of_lstrip.
Qed.

Lemma length_strip s : length (strip s) ≤ length s.
Proof.
  unfold strip, rstrip. rewrite length_reverse.
  etransitivity; [apply suffix_length, lstrip_suffix|].
  rewrite length_reverse. apply suffix_length, lstrip_suffix.
Qed.

(** What [strip] returns has no white space at either end. *)
Lemma strip_no_outer_space s : no_outer_space (strip s).
Proof.
  unfold strip, rstrip. split; intros c.
  - destruct (lstrip s) as [|x l] eqn:Hl; [done|].
    assert (is_space x = false) as Hx by (apply (lstrip_head s); by rewrite Hl).
    rewrite reverse_cons, lstrip_snoc, reverse_snoc by done.
    simpl. by intros [= <-].
  - rewrite last_reverse. apply lstrip_head.
Qed.

(** Trimming twice is trimming once. *)
Lemma strip_idemp s : strip (strip s) = strip s.
Proof.
  destruct (strip_no_outer_space s) as [Hh Hl].
  unfold strip at 1. rewrite (lstrip_id (strip s)) by done.
  unfold rstrip. rewrite lstrip_id, reverse_involutive; [done|].
  intros c. rewrite head_reverse. apply Hl.
Qed.

End Trimming.

(** ** The two documents *)

Section Documents.
Import Generate.
Variable lower : list N → list N.

Lemma elem_of_concat {A} (x : A) (ls : list (list A)) :
  x ∈ concat ls ↔ ∃ l, l ∈ ls ∧ x ∈ l.
Proof.
  rewrite list_elem_of_In, in_concat.
  by setoid_rewrite list_elem_of_In.
Qed.

Lemma elem_of_map {A B} (f : A → B) (l : list A) (y : B) :
  y ∈ map f l ↔ ∃ x, y = f x ∧ x ∈ l.
Proof. exact (list_elem_of_fmap f l y). Qed.

(** What a section contributes: nothing for an empty bucket, else its
    heading, one entry per task and an empty entry. *)
Lemma elem_of_section render m p x :
  x ∈ section render m p ↔
  bucket m p ≠ [] ∧
  (x = lit "## " ++ p ∨ (∃ t, x = render t ∧ t ∈ bucket m p) ∨ x = []).
Proof.
  unfold section. destruct (bucket m p) as [|t b] eqn:Hb.
  - rewrite elem_of_nil. tauto.
  - rewrite elem_of_cons, elem_of_app, elem_of_map, list_elem_of_singleton.
    intuition congruence.
Qed.

Lemma bucket_nonempty tasks p :
  bucket (by_phase lower tasks) p ≠ [] ↔ ∃ t, t ∈ tasks ∧ phase t = p.
Proof.
  split.
  - intros Hne. destruct (bucket (by_phase lower tasks) p) as [|t b] eqn:Hb;
      [done|].
    exists t. apply (elem_of_bucket lower). rewrite Hb. by left.
  - intros (t & Ht & Hp) Hb.
    assert (t ∈ bucket (by_phase lower tasks) p) as Hin
      by by apply elem_of_bucket.
    rewrite Hb in Hin. by apply elem_of_nil in Hin.
Qed.

Lemma heading_inj p q : lit "## " ++ p = lit "## " ++ q → p = q.
Proof. by intros ?%(inj (app _)). Qed.

(** A heading is among the entries exactly when its bucket has a task,
    for any preamble and any rendering that cannot be taken for it. *)
Lemma heading_in_entries render pre tasks p :
  p ∈ PHASES →
  lit "## " ++ p ∉ pre →
  (∀ t, render t ≠ lit "## " ++ p) →
  lit "## " ++ p
    ∈ pre ++ concat (map (section render (by_phase lower tasks)) PHASES)
  ↔ ∃ t, t ∈ tasks ∧ phase t = p.
Proof.
  intros Hp Hpre Hrender.
  rewrite elem_of_app, elem_of_concat. split.
  - intros [?|(l & Hl & Hin)]; [done|].
    apply elem_of_map in Hl as (q & -> & Hq).
    apply elem_of_section in Hin as (Hne & [Heq|[(t & Heq & _)|Heq]]).
    + apply heading_inj in Heq as ->. by apply bucket_nonempty.
    + by destruct (Hrender t).
    + done.
  - intros Ht. right. exists (section render (by_phase lower tasks) p).
    split; [apply elem_of_map; eauto|].
    apply elem_of_section. split; [by apply bucket_nonempty|by left].
Qed.


Lemma md_line_not_heading t p : md_line t ≠ lit "## " ++ p.
Proof. unfold md_line. by case_bool_decide. Qed.

Lemma kanban_line_not_heading t p : kanban_line t ≠ lit "## " ++ p.
Proof. done. Qed.

Lemma heading_not_in_md_preamble p : lit "## " ++ p ∉ md_preamble.
Proof.
  unfold md_preamble. intros Hin.
  repeat (apply elem_of_cons in Hin as [Hin|Hin]; [discriminate Hin|]).
  by apply elem_of_nil in Hin.
Qed.

Lemma heading_not_in_kanban_preamble p : lit "## " ++ p ∉ kanban_preamble.
Proof.
  unfold kanban_preamble. intros Hin.
  repeat (apply elem_of_cons in Hin as [Hin|Hin]; [discriminate Hin|]).
  by apply elem_of_nil in Hin.
Qed.

Lemma LF_not_in_single_line d : LF ∉ single_line d.
Proof.
  unfold single_line, replace_char. intros Hin%elem_of_strip.
  apply elem_of_map in Hin as (c & Hc & _).
  destruct (N.eqb_spec c LF) as [Heq|Hne]; [done|]. by destruct Hne.
Qed.


(** *** The lines of a document *)






(** A document is its entries, each one followed by a line feed. *)
Lemma join_terminated sep x l :
  join sep (x :: l) ++ sep = concat (map (λ e, e ++ sep) (x :: l)).
Proof.
  revert x. induction l as [|y l IH]; intros x.
  - simpl. by rewrite app_nil_r.
  - change (join sep (x :: y :: l)) with (x ++ sep ++ join sep (y :: l)).
    rewrite <- !app_assoc, IH. cbn [map concat].
    by rewrite <- !app_assoc.
Qed.

(** An entry that is not the first stands in the document between two
    line feeds. *)
Lemma entry_in_document (l1 l2 : list (list N)) x :
  l1 ≠ [] →
  ∃ before after,
    join [LF] (l1 ++ x :: l2) ++ [LF] = before ++ LF :: x ++ LF :: after.
Proof.
  intros Hne.
  assert (∀ l : list (list N), l ≠ [] →
    join [LF] l ++ [LF] = concat (map (λ e, e ++ [LF]) l)) as Hj.
  { intros [|e l] Hl; [done|]. apply join_terminated. }
  rewrite Hj by (by destruct l1).
  destruct (exists_last Hne) as (l1' & z & ->).
  exists (concat (map (λ e, e ++ [LF]) l1') ++ z),
         (concat (map (λ e, e ++ [LF]) l2)).
  rewrite !map_app, !concat_app. cbn [map concat].
  rewrite <- !app_assoc. reflexivity.
Qed.

(** What [write_markdown] leaves when it returns. *)
Lemma write_markdown_ok e tasks d d' :
  write_markdown lower e tasks d = (Ok (), d') →
  d' = d ++ [(docs_ROADMAP_md, roadmap_md lower tasks);
             (docs_ROADMAP_KANBAN_md, roadmap_kanban_md lower tasks)].
Proof.
  unfold write_markdown, write_text.
  destruct (open_error e docs_ROADMAP_md); [done|].
  destruct (encodable (roadmap_md lower tasks)); [|done].
  destruct (open_error e docs_ROADMAP_KANBAN_md); [done|].
  destruct (encodable (roadmap_kanban_md lower tasks)); [|done].
  intros [= <-]. by rewrite <- app_assoc.
Qed.











(** The entry of a task of one of the three phases is in the grouped
    document, and in the kanban document. *)
Lemma task_in_entries render pre tasks t :
  t ∈ tasks → phase t ∈ PHASES →
  render t
    ∈ pre ++ concat (map (section render (by_phase lower tasks)) PHASES).
Proof.
  intros Ht Hp. apply elem_of_app. right.
  apply elem_of_concat.
  exists (section render (by_phase lower tasks) (phase t)). split.
  - apply elem_of_map. eauto.
  - apply elem_of_section. split; [apply bucket_nonempty; eauto|].
    right; left. exists t. split; [done|]. by apply elem_of_bucket.
Qed.

(** C6: in the grouped document the entry of a task under one of the
    three headings whose description is not empty is a line with the
    title and the status and a second line with the description on a
    single line (line feeds replaced by spaces, then trimmed): cut to
    its first 157 characters and three dots when it has more than 160
    characters, so when it has exactly 161, and unchanged when it has
    at most 160; and this text is what [write_markdown] has written in
    the grouped document when it returns. *)
Theorem description_truncated_at_161 tasks t :
  t ∈ tasks → phase t ∈ PHASES → description t ≠ [] →
  (160 < length (strip (replace_char LF SPACE (description t))) →
   ∃ before after,
     roadmap_md lower tasks
     = before
       ++ LF :: (lit "- " ++ title t ++ SEPARATOR ++ status t)
       ++ LF :: lit "  - "
       ++ take 157 (strip (replace_char LF SPACE (description t)))
       ++ lit "..."
       ++ LF :: after)
  ∧ (length (strip (replace_char LF SPACE (description t))) ≤ 160 →
     ∃ before after,
       roadmap_md lower tasks
       = before
         ++ LF :: (lit "- " ++ title t ++ SEPARATOR ++ status t)
         ++ LF :: lit "  - "
         ++ strip (replace_char LF SPACE (description t))
         ++ LF :: after)
  ∧ (∀ e d d',
       write_markdown lower e tasks d = (Ok (), d') →
       d' = d ++ [(docs_ROADMAP_md, roadmap_md lower tasks);
                  (docs_ROADMAP_KANBAN_md, roadmap_kanban_md lower tasks)]).
Proof.
  intros Ht Hp Hd.
  assert (∃ before after,
    roadmap_md lower tasks = before ++ LF :: md_line t ++ LF :: after)
    as (before & after & Hdoc).
  { assert (md_line t
            ∈ concat (map (section md_line (by_phase lower tasks)) PHASES))
      as Hin.
    { apply elem_of_concat.
      exists (section md_line (by_phase lower tasks) (phase t)). split.
      - apply elem_of_map. eauto.
      - apply elem_of_section. split; [apply bucket_nonempty; eauto|].
        right; left. exists t. split; [done|]. by apply elem_of_bucket. }
    apply list_elem_of_split in Hin as (l1 & l2 & Hsec).
    unfold roadmap_md, md_entries. rewrite Hsec, app_assoc.
    by apply entry_in_document. }
  unfold md_line, short_description, single_line in Hdoc.
  rewrite (bool_decide_eq_false_2 (description t = [])) in Hdoc by done.
  split; [|split].
  - intros Hlen. rewrite bool_decide_eq_true_2 in Hdoc by lia.
    exists before, after. rewrite Hdoc.
    repeat (rewrite <- ?app_assoc; cbn [app]). reflexivity.
  - intros Hlen. rewrite bool_decide_eq_false_2 in Hdoc by lia.
    exists before, after. rewrite Hdoc.
    repeat (rewrite <- ?app_assoc; cbn [app]). reflexivity.
  - intros e d d'. apply write_markdown_ok.
Qed.



End Documents.

(** ** The tabular exports *)

Section Exports.
Import Generate.
Variable lower : list N → list N.








End Exports.

(** ** The loaders *)

Section Loaders.

Lemma py_strip_raise v e : py_strip v = Raise e → ∃ m, e = AttributeError m.
Proof. destruct v; simpl; intros [=]; eauto. Qed.

Lemma py_strip_not_str v :
  is_str v = false → ∃ m, py_strip v = Raise (AttributeError m).
Proof. destruct v; simpl; intros [=]; eauto. Qed.

Lemma py_strip_ok v d : py_strip v = Ok d → ∃ s, v = JStr s ∧ d = strip s.
Proof. destruct v; simpl; intros [=]; eauto. Qed.

Lemma py_or_truthy a b : truthy a = true → py_or a b = a.
Proof. unfold py_or. by intros ->. Qed.

Lemma py_or_falsy a b : truthy a = false → py_or a b = b.
Proof. unfold py_or. by intros ->. Qed.

(** Whatever [normalize] raises is an [AttributeError]. *)
Lemma normalize_raise t e :
  Generate.normalize t = Raise e → ∃ m, e = AttributeError m.
Proof.
  unfold Generate.normalize, mbind, result_bind.
  repeat match goal with
  | |- context [match py_strip ?v with _ => _ end] =>
      let H := fresh in
      destruct (py_strip v) eqn:H;
        [|intros [= <-]; by eapply py_strip_raise]
  end.
  case_bool_decide; intros [=].
Qed.

(** The exception a truthy value that is not text causes. *)
Lemma normalize_non_text t k :
  k ∈ [lit "title"; lit "description"; lit "phase"; lit "status"] →
  truthy (dict_get t k JNull) = true →
  is_str (dict_get t k JNull) = false →
  ∃ m, Generate.normalize t = Raise (AttributeError m).
Proof.
  intros Hk Ht Hs.
  destruct (Generate.normalize t) as [r|e] eqn:Hn.
  2:{ apply normalize_raise in Hn as [m ->]. eauto. }
  exfalso. revert Hn.
  unfold Generate.normalize, mbind, result_bind.
  rewrite !elem_of_cons, elem_of_nil in Hk.
  destruct Hk as [-> | [-> | [-> | [-> | []]]]];
    rewrite (py_or_truthy _ _ Ht);
    destruct (py_strip_not_str _ Hs) as [m ->];
    repeat match goal with
    | |- context [match py_strip ?v with _ => _ end] =>
        destruct (py_strip v); [|done]
    end; done.
Qed.

Lemma normalize_all_raise items : ∀ norm t,
  JDict t ∈ items →
  (∃ m, Generate.normalize t = Raise (AttributeError m)) →
  ∃ m, Generate.normalize_all items norm = Raise (AttributeError m).
Proof.
  induction items as [|x items IH]; intros norm t Hin Hbad.
  - by apply elem_of_nil in Hin.
  - apply elem_of_cons in Hin as [<-|Hin].
    + destruct Hbad as [m Hm]. simpl.
      unfold mbind, result_bind. rewrite Hm. eauto.
    + destruct x; simpl; try by eapply IH.
      unfold mbind, result_bind.
      destruct (Generate.normalize d) as [r|e] eqn:Hd.
      * by eapply IH.
      * apply normalize_raise in Hd as [m ->]. eauto.
Qed.

(** C1, as the code behaves: a top-level bare sequence makes both
    loaders raise [AttributeError], since a list has no [get], and the
    generation run ends with exit code 1; only the mapping form is
    loaded. *)
Theorem bare_sequence_raises (L : list json) :
  Generate.load_tasks (Parsed (JList L)) = no_attribute (JList L) (lit "get")
  ∧ Issues.load_tasks (Parsed (JList L)) = no_attribute (JList L) (lit "get")
  ∧ (∀ lower src mk op,
       Generate.exit_code
         (Generate.main lower (Generate.Env src (Parsed (JList L)) mk op))
       = 1%Z)
  ∧ Generate.load_tasks (Parsed (JDict [(lit "tasks", JList L)]))
    = Generate.normalize_all L []
  ∧ Issues.load_tasks (Parsed (JDict [(lit "tasks", JList L)]))
    = Ok (Issues.titled (map Issues.fill_item L)).
Proof.
  repeat split.
  intros lower src [x|] op; reflexivity.
Qed.

(** C2, as the code behaves: [generate.py] emits an empty phase and an
    empty status for a record whose phase and status are blank but not
    empty, and [create_github_issues.py] keeps a blank title, an empty
    phase and a null status as they are. *)
Theorem blank_phase_and_status_emitted :
  Generate.load_tasks
    (Parsed (JDict [(lit "tasks",
       JList [JDict [(lit "title", JStr (lit "A"));
                     (lit "phase", JStr (lit "  "));
                     (lit "status", JStr (lit " "))]])]))
  = Ok [Task (lit "A") [] [] []]
  ∧ Issues.load_tasks
      (Parsed (JDict [(lit "tasks",
         JList [JDict [(lit "title", JStr (lit "  "));
                       (lit "phase", JStr []);
                       (lit "status", JNull)]])]))
    = Ok [[(lit "title", JStr (lit "  ")); (lit "phase", JStr []);
           (lit "status", JNull); (lit "description", JStr [])]].
Proof. split; reflexivity. Qed.

(** C9: when some record of the input has, under [title],
    [description], [phase] or [status], a truthy value that is not
    text, [load_tasks] raises [AttributeError] and the generation run
    writes nothing (no file is even opened) and ends with exit code
    1. *)
Theorem non_text_field_aborts_generation
    data tasks items t k lower src mk op :
  py_get data (lit "tasks") data = Ok tasks →
  py_iter tasks = Ok items →
  JDict t ∈ items →
  k ∈ [lit "title"; lit "description"; lit "phase"; lit "status"] →
  truthy (dict_get t k JNull) = true →
  is_str (dict_get t k JNull) = false →
  (∃ m, Generate.load_tasks (Parsed data) = Raise (AttributeError m))
  ∧ Generate.exit_code
      (Generate.main lower (Generate.Env src (Parsed data) mk op)) = 1%Z
  ∧ Generate.written
      (Generate.main lower (Generate.Env src (Parsed data) mk op)) = None
  ∧ Generate.files
      (Generate.main lower (Generate.Env src (Parsed data) mk op)) = [].
Proof.
  intros Hget Hiter Hin Hk Ht Hs.
  destruct (normalize_all_raise items [] t Hin
              (normalize_non_text t k Hk Ht Hs)) as [m Hm].
  assert (Generate.load_tasks (Parsed data) = Raise (AttributeError m))
    as Hload.
  { unfold Generate.load_tasks, Generate.load_data. simpl.
    unfold mbind, result_bind. by rewrite Hget, Hiter. }
  split; [eauto|].
  unfold Generate.main, Generate.ensure_dirs. simpl.
  destruct mk; simpl; [done|].
  by rewrite Hload.
Qed.

Definition ex_numeric_phase : json :=
  JDict [(lit "tasks",
    JList [JDict [(lit "title", JStr (lit "A"))];
           JDict [(lit "title", JStr (lit "B")); (lit "phase", JInt 5)]])].

Lemma non_text_field_aborts_generation_witness :
  (∃ m, Generate.load_tasks (Parsed ex_numeric_phase)
        = Raise (AttributeError m))
  ∧ Generate.exit_code
      (Generate.main ascii_lower
         (Generate.Env (lit "roadmap.json") (Parsed ex_numeric_phase) None
            (λ _, None)))
    = 1%Z
  ∧ Generate.written
      (Generate.main ascii_lower
         (Generate.Env (lit "roadmap.json") (Parsed ex_numeric_phase) None
            (λ _, None)))
    = None
  ∧ Generate.files
      (Generate.main ascii_lower
         (Generate.Env (lit "roadmap.json") (Parsed ex_numeric_phase) None
            (λ _, None)))
    = [].
Proof.
  apply (non_text_field_aborts_generation ex_numeric_phase
           (JList [JDict [(lit "title", JStr (lit "A"))];
                   JDict [(lit "title", JStr (lit "B"));
                          (lit "phase", JInt 5)]])
           [JDict [(lit "title", JStr (lit "A"))];
            JDict [(lit "title", JStr (lit "B")); (lit "phase", JInt 5)]]
           [(lit "title", JStr (lit "B")); (lit "phase", JInt 5)]
           (lit "phase")).
  - reflexivity.
  - reflexivity.
  - apply list_elem_of_further, list_elem_of_here.
  - do 2 apply list_elem_of_further. apply list_elem_of_here.
  - reflexivity.
  - reflexivity.
Defined.

(** *** The description *)




Lemma dict_get_absent d k v : dict_has d k = false → dict_get d k v = v.
Proof.
  unfold dict_has. intros Hk%bool_decide_eq_false.
  induction d as [|[k' v'] d IH]; [done|].
  simpl in *. rewrite elem_of_cons in Hk.
  case_bool_decide; [naive_solver|]. apply IH. tauto.
Qed.




Lemma or_chain_is_text vs :
  Forall (λ v, truthy v = true → is_str v = true) vs →
  ∃ s, foldr py_or (JStr []) vs = JStr s.
Proof.
  induction 1 as [|v vs Hv _ IH]; cbn [foldr]; [eauto|].
  destruct (truthy v) eqn:Ht.
  - rewrite py_or_truthy by done.
    destruct v; try (by specialize (Hv eq_refl)). eauto.
  - by rewrite py_or_falsy.
Qed.

(** What [normalize] emits: the four selected values, each of them
    text, trimmed; and the trimmed title is not empty. *)
Lemma normalize_fields t r :
  Generate.normalize t = Ok (Some r) →
  ∃ s1 s2 s3 s4,
    py_or (dict_get t (lit "title") JNull) (JStr []) = JStr s1
    ∧ foldr py_or (JStr []) (candidates t) = JStr s2
    ∧ py_or (dict_get t (lit "phase") JNull) (JStr (lit "Unassigned"))
      = JStr s3
    ∧ py_or (dict_get t (lit "status") JNull) (JStr (lit "To Do")) = JStr s4
    ∧ r = Task (strip s1) (strip s2) (strip s3) (strip s4)
    ∧ strip s1 ≠ [].
Proof.
  unfold Generate.normalize, mbind, result_bind, mret, result_ret.
  destruct (py_strip (py_or (dict_get t (lit "title") JNull) _))
    as [ti|] eqn:H1; [|done].
  destruct (py_strip (py_or (dict_get t (lit "description") JNull) _))
    as [d|] eqn:H2; [|done].
  destruct (py_strip (py_or (dict_get t (lit "phase") JNull) _))
    as [ph|] eqn:H3; [|done].
  destruct (py_strip (py_or (dict_get t (lit "status") JNull) _))
    as [st|] eqn:H4; [|done].
  case_bool_decide as Hti; [done|]. intros [= <-].
  apply py_strip_ok in H1 as (s1 & H1 & ->).
  apply py_strip_ok in H2 as (s2 & H2 & ->).
  apply py_strip_ok in H3 as (s3 & H3 & ->).
  apply py_strip_ok in H4 as (s4 & H4 & ->).
  by exists s1, s2, s3, s4.
Qed.


(** What does hold of the records [generate.py] emits: the title is
    not empty, and an absent, null or empty phase or status gets its
    default. *)
Lemma normalize_defaults t r :
  Generate.normalize t = Ok (Some r) →
  title r ≠ []
  ∧ (truthy (dict_get t (lit "phase") JNull) = false →
     phase r = lit "Unassigned")
  ∧ (truthy (dict_get t (lit "status") JNull) = false →
     status r = lit "To Do").
Proof.
  intros (s1 & s2 & s3 & s4 & _ & _ & H3 & H4 & -> & Hti)%normalize_fields.
  split; [done|]. split; intros Hf.
  - rewrite py_or_falsy in H3 by done. by injection H3 as <-.
  - rewrite py_or_falsy in H4 by done. by injection H4 as <-.
Qed.












End Loaders.

(** ** The issue publisher *)

Section Publishing.
Import Issues.
Variable format_value : json → list N.






Lemma print_ok line w :
  encodable line = true → print line w = inr (put line w).
Proof. unfold print. by intros ->. Qed.


Lemma encodable_done n :
  encodable (lit "Done. Created " ++ str_of_nat n ++ lit " issues.") = true.
Proof. by rewrite !encodable_app, encodable_str_of_nat. Qed.









End Publishing.

(** *** Concrete runs of the publisher *)

Definition ex_three_tasks : json :=
  JDict [(lit "tasks",
    JList [JDict [(lit "title", JStr (lit "One"));
                  (lit "phase", JStr (lit "Now"))];
           JDict [(lit "title", JStr (lit "Two"));
                  (lit "desc", JStr (lit "second"))];
           JDict [(lit "title", JStr (lit "Three"))]])].


(** A [gh] whose third call, the command of the second task, fails. *)
Definition gh_second_fails (n : nat) (cmd : list (list N))
  : Issues.run_outcome :=
  if decide (n = 2) then Issues.CalledProcessError (lit "exit status 1")
  else Issues.Completed.

(** A [gh] that is gone at the third call. *)
Definition gh_second_missing (n : nat) (cmd : list (list N))
  : Issues.run_outcome :=
  if decide (n = 2) then Issues.ToolNotFound (lit "No such file: 'gh'")
  else Issues.Completed.

Definition ex_env (data : json) (gh : nat → list (list N) → Issues.run_outcome)
  : Issues.env :=
  Issues.Env (lit "blackbox_roadmap_with_backlog.json") (Parsed data) gh.

(** Four records, the third with a number as title. *)
Definition ex_numeric_title : json :=
  JDict [(lit "tasks",
    JList [JDict [(lit "title", JStr (lit "One"))];
           JDict [(lit "title", JStr (lit "Two"))];
           JDict [(lit "title", JInt 5)];
           JDict [(lit "title", JStr (lit "Four"))]])].





(** C5 as stated fails.  After the failure of the second creation the
    third record, whose title is a number, ends the run with 1 and the
    fourth is never attempted; a [gh] that is gone at the second
    creation ends the run with 1 and the third task is never attempted;
    and an issue whose title holds a surrogate is created and counted,
    but its confirmation cannot be printed and the run ends with 1. *)
Lemma creation_failure_can_end_the_batch :
  Issues.main format_none (ex_env ex_numeric_title gh_second_fails)
    (Issues.Args (Some (lit "owner/name")) false)
  = (1%Z,
     Issues.World
       [lit "Created issue: One"]
       [lit "Failed to create issue for 'Two': exit status 1";
        lit "Error: 'int' object has no attribute 'strip'"]
       [[lit "gh"; lit "--version"];
        [lit "gh"; lit "issue"; lit "create"; lit "--repo"; lit "owner/name";
         lit "--title"; lit "One"; lit "--body";
         lit "Imported from roadmap."; lit "--label";
         lit "phase:Unassigned,status:To Do"];
        [lit "gh"; lit "issue"; lit "create"; lit "--repo"; lit "owner/name";
         lit "--title"; lit "Two"; lit "--body";
         lit "Imported from roadmap."; lit "--label";
         lit "phase:Unassigned,status:To Do"]]
       1)
  ∧ Issues.main format_none (ex_env ex_three_tasks gh_second_missing)
      (Issues.Args (Some (lit "owner/name")) false)
    = (1%Z,
       Issues.World
         [lit "Created issue: One"]
         [lit "Error: No such file: 'gh'"]
         [[lit "gh"; lit "--version"];
          [lit "gh"; lit "issue"; lit "create"; lit "--repo";
           lit "owner/name"; lit "--title"; lit "One"; lit "--body";
           lit "Imported from roadmap."; lit "--label";
           lit "phase:Now,status:To Do"];
          [lit "gh"; lit "issue"; lit "create"; lit "--repo";
           lit "owner/name"; lit "--title"; lit "Two"; lit "--body";
           lit "second"; lit "--label";
           lit "phase:Unassigned,status:To Do"]]
         1)
  ∧ Issues.main format_none
      (ex_env
         (JDict [(lit "tasks",
            JList [JDict [(lit "title", JStr [56448%N])];
                   JDict [(lit "title", JStr (lit "Next one"))]])])
         (λ _ _, Issues.Completed))
      (Issues.Args (Some (lit "owner/name")) false)
    = (1%Z,
       Issues.World []
         [lit "Error: 'utf-8' codec can't encode character '\udc80' in position 15: surrogates not allowed"]
         [[lit "gh"; lit "--version"];
          [lit "gh"; lit "issue"; lit "create"; lit "--repo";
           lit "owner/name"; lit "--title"; [56448%N]; lit "--body";
           lit "Imported from roadmap."; lit "--label";
           lit "phase:Unassigned,status:To Do"]]
         1).
Proof. repeat split; reflexivity. Qed.


(** The run of three tasks whose second creation fails, in full. *)
Example second_of_three_fails :
  Issues.main format_none (ex_env ex_three_tasks gh_second_fails)
    (Issues.Args (Some (lit "owner/name")) false)
  = (0%Z,
     Issues.World
       [lit "Created issue: One"; lit "Created issue: Three";
        lit "Done. Created 2 issues."]
       [lit "Failed to create issue for 'Two': exit status 1"]
       [[lit "gh"; lit "--version"];
        [lit "gh"; lit "issue"; lit "create"; lit "--repo"; lit "owner/name";
         lit "--title"; lit "One"; lit "--body";
         lit "Imported from roadmap."; lit "--label";
         lit "phase:Now,status:To Do"];
        [lit "gh"; lit "issue"; lit "create"; lit "--repo"; lit "owner/name";
         lit "--title"; lit "Two"; lit "--body"; lit "second"; lit "--label";
         lit "phase:Unassigned,status:To Do"];
        [lit "gh"; lit "issue"; lit "create"; lit "--repo"; lit "owner/name";
         lit "--title"; lit "Three"; lit "--body";
         lit "Imported from roadmap."; lit "--label";
         lit "phase:Unassigned,status:To Do"]]
       2).
Proof. reflexivity. Qed.

(** The dry run of the same three tasks, in full. *)
Example dry_run_of_three :
  Issues.main format_none
    (ex_env ex_three_tasks (λ _ _, Issues.Completed))
    (Issues.Args None true)
  = (0%Z,
     Issues.World
       [lit "DRY: gh issue create --title One --body Imported from roadmap. --label phase:Now,status:To Do";
        lit "DRY: gh issue create --title Two --body second --label phase:Unassigned,status:To Do";
        lit "DRY: gh issue create --title Three --body Imported from roadmap. --label phase:Unassigned,status:To Do";
        lit "Done. Created 0 issues."]
       [] [[lit "gh"; lit "--version"]] 0).
Proof. reflexivity. Qed.

(** *** Concrete runs of the generator *)

(** A run in which the directories can be made and the four files
    opened. *)
Definition ex_generate_env (f : source_file) : Generate.env :=
  Generate.Env (lit "blackbox_roadmap_with_backlog.json") f None (λ _, None).







(** A description of 161 characters with a line feed in it, and one of
    160 characters between white space. *)
Definition ex_long : task :=
  Task (lit "Write") (replicate 80 97%N ++ LF :: replicate 80 97%N)
    (lit "Now") (lit "To Do").

Definition ex_fitting : task :=
  Task (lit "Read") (SPACE :: replicate 160 97%N ++ [LF])
    (lit "Next") (lit "To Do").

Lemma now_is_a_phase : lit "Now" ∈ Generate.PHASES.
Proof. apply list_elem_of_here. Defined.

Lemma next_is_a_phase : lit "Next" ∈ Generate.PHASES.
Proof. apply list_elem_of_further, list_elem_of_here. Defined.

Lemma description_truncated_at_161_witness :
  (∃ before after,
     Generate.roadmap_md ascii_lower [ex_long; ex_fitting]
     = before
       ++ LF :: (lit "- Write" ++ Generate.SEPARATOR ++ lit "To Do")
       ++ LF :: lit "  - "
       ++ (replicate 80 97%N ++ SPACE :: replicate 76 97%N) ++ lit "..."
       ++ LF :: after)
  ∧ (∃ before after,
       Generate.roadmap_md ascii_lower [ex_long; ex_fitting]
       = before
         ++ LF :: (lit "- Read" ++ Generate.SEPARATOR ++ lit "To Do")
         ++ LF :: lit "  - " ++ replicate 160 97%N ++ LF :: after).
Proof.
  split.
  - refine (proj1 (description_truncated_at_161 ascii_lower
                     [ex_long; ex_fitting] ex_long _ now_is_a_phase _) _).
    + apply list_elem_of_here.
    + discriminate.
    + vm_compute. lia.
  - refine (proj1 (proj2 (description_truncated_at_161 ascii_lower
                     [ex_long; ex_fitting] ex_fitting _ next_is_a_phase _))
              _).
    + apply list_elem_of_further, list_elem_of_here.
    + discriminate.
    + vm_compute. lia.
Defined.

(** A title of three lines, the second being [## Now]. *)
Definition ex_injected : task :=
  Task (lit "x" ++ LF :: lit "## Now" ++ LF :: lit "y") []
    (lit "Later") (lit "To Do").

Definition ex_injected_source : source_file :=
  Parsed (JDict [(lit "tasks",
    JList [JDict [(lit "title",
                   JStr (lit "x" ++ LF :: lit "## Now" ++ LF :: lit "y"));
                  (lit "phase", JStr (lit "Later"))]])]).

(** C10 as stated fails: a task of phase Later whose title has the
    line [## Now] in it is loaded and written, and both documents have
    the line [## Now] although no task has the phase Now. *)
Lemma heading_without_task :
  Generate.load_tasks ex_injected_source = Ok [ex_injected]
  ∧ Generate.exit_code
      (Generate.main ascii_lower (ex_generate_env ex_injected_source))
    = 0%Z
  ∧ Generate.files
      (Generate.main ascii_lower (ex_generate_env ex_injected_source))
    = outputs ascii_lower [ex_injected]
  ∧ lit "## Now" ∈ lines_of (Generate.roadmap_md ascii_lower [ex_injected])
  ∧ lit "## Now"
    ∈ lines_of (Generate.roadmap_kanban_md ascii_lower [ex_injected])
  ∧ ¬ ∃ t, t ∈ [ex_injected] ∧ phase t = lit "Now".
Proof.
  split; [by vm_compute|]. split; [by vm_compute|].
  split; [by vm_compute|]. split; [closed|]. split; [closed|].
  intros (t & ->%list_elem_of_singleton & [=]).
Qed.


(** Three records, the second with a surrogate as title. *)
Definition ex_surrogate_second : json :=
  JDict [(lit "tasks",
    JList [JDict [(lit "title", JStr (lit "A"))];
           JDict [(lit "title", JStr [55296%N])];
           JDict [(lit "title", JStr (lit "C"))]])].

(** C8 as stated fails: the records are loaded, but writing the row of
    the second raises; [docs/roadmap.csv] is left with the header row
    and the row of the first record, the issue-import export is not
    written, and the run ends with 1. *)
Lemma surrogate_stops_the_export :
  Generate.load_tasks (Parsed ex_surrogate_second)
  = Ok [Task (lit "A") [] (lit "Unassigned") (lit "To Do");
        Task [55296%N] [] (lit "Unassigned") (lit "To Do");
        Task (lit "C") [] (lit "Unassigned") (lit "To Do")]
  ∧ Generate.main ascii_lower (ex_generate_env (Parsed ex_surrogate_second))
    = Generate.Run 1 []
        [lit "Error generating roadmap: 'utf-8' codec can't encode character '\ud800' in position 0: surrogates not allowed"]
        None
        [(Generate.docs_ROADMAP_md,
          join [LF] Generate.md_preamble ++ [LF]);
         (Generate.docs_ROADMAP_KANBAN_md,
          join [LF] Generate.kanban_preamble ++ [LF]);
         (Generate.docs_roadmap_csv,
          lit "title,description,phase,status" ++ [CR; LF]
          ++ lit "A,,Unassigned,To Do" ++ [CR; LF])]
  ∧ Csv.read (lit "title,description,phase,status" ++ [CR; LF]
              ++ lit "A,,Unassigned,To Do" ++ [CR; LF])
    = Some [[lit "title"; lit "description"; lit "phase"; lit "status"];
            [lit "A"; []; lit "Unassigned"; lit "To Do"]].
Proof. repeat split; by vm_compute. Qed.


(** The grouped document of two tasks, in full. *)
Example roadmap_of_two :
  Generate.roadmap_md ascii_lower
    [Task (lit "ship it") (lit "first line") (lit "Now") (lit "Doing");
     Task (lit "Plan") [] (lit "Someday") (lit "To Do")]
  = join [LF]
      (Generate.md_preamble
       ++ [lit "## Now";
           (lit "- ship it" ++ Generate.SEPARATOR ++ lit "Doing")
           ++ LF :: lit "  - first line";
           []])
    ++ [LF].
Proof. by vm_compute. Qed.

(** * Further properties of the two scripts *)

(** ** find_repo_root *)

Section RepoRootProps.
Import RepoRoot.
Variable has_roadmap : list (list N) → bool.

Lemma walk_up_spec start cur :
  (has_roadmap (walk_up has_roadmap start cur) = true
   ∧ walk_up has_roadmap start cur ≠ []
   ∧ walk_up has_roadmap start cur `suffix_of` cur)
  ∨ (walk_up has_roadmap start cur = start
     ∧ ∀ d, d ≠ [] → d `suffix_of` cur → has_roadmap d = false).
Proof.
  induction cur as [|x cur IH]; simpl.
  - right. split; [done|]. by intros d Hd ->%suffix_nil_inv.
  - destruct (has_roadmap (x :: cur)) eqn:Hx.
    + left. by rewrite Hx.
    + destruct IH as [(Hr & Hne & Hs)|[Hr Hnone]].
      * left. repeat split; [done..|]. by apply suffix_cons_r.
      * right. split; [done|]. intros d Hd Hs.
        destruct d as [|y d]; [done|].
        apply suffix_cons_inv in Hs as [Heq|Hs]; [|by apply Hnone].
        by rewrite Heq.
Qed.

Lemma walk_up_nearest start cur d :
  d ≠ [] → d `suffix_of` cur → has_roadmap d = true →
  has_roadmap (walk_up has_roadmap start cur) = true
  ∧ d `suffix_of` walk_up has_roadmap start cur.
Proof.
  intros Hd Hs Hhas. induction cur as [|x cur IH]; simpl.
  - by apply suffix_nil_inv in Hs.
  - destruct (has_roadmap (x :: cur)) eqn:Hx; [by rewrite Hx|].
    destruct d as [|y d]; [done|].
    apply suffix_cons_inv in Hs as [Heq|Hs]; [|by apply IH].
    rewrite Heq in Hhas. congruence.
Qed.

(** X1: [find_repo_root] returns either a directory that holds the
    roadmap file, is not the root of the file system and is [start] or
    one of its ancestors, or [start] itself when neither [start] nor any
    ancestor below the root holds the file; the root itself is never
    looked at. *)
Theorem find_repo_root_result start :
  (has_roadmap (find_repo_root has_roadmap start) = true
   ∧ find_repo_root has_roadmap start ≠ []
   ∧ find_repo_root has_roadmap start `suffix_of` start)
  ∨ (find_repo_root has_roadmap start = start
     ∧ ∀ d, d ≠ [] → d `suffix_of` start → has_roadmap d = false).
Proof. apply walk_up_spec. Qed.

(** X2: when [start] or an ancestor [d] of it, other than the root,
    holds the roadmap file, [find_repo_root] returns the nearest such
    directory: it holds the file and [d] is it or one of its
    ancestors. *)
Theorem find_repo_root_nearest start d :
  d ≠ [] → d `suffix_of` start → has_roadmap d = true →
  has_roadmap (find_repo_root has_roadmap start) = true
  ∧ d `suffix_of` find_repo_root has_roadmap start.
Proof. apply walk_up_nearest. Qed.

End RepoRootProps.

(** A file system where only [/home/repo] and the root hold the file. *)
Definition ex_has_roadmap (d : list (list N)) : bool :=
  bool_decide (d = [lit "repo"; lit "home"]) || bool_decide (d = []).

Lemma find_repo_root_nearest_witness :
  ex_has_roadmap
    (RepoRoot.find_repo_root ex_has_roadmap
       [lit "roadmap"; lit "scripts"; lit "repo"; lit "home"]) = true
  ∧ [lit "repo"; lit "home"]
    `suffix_of` RepoRoot.find_repo_root ex_has_roadmap
                  [lit "roadmap"; lit "scripts"; lit "repo"; lit "home"].
Proof.
  apply (find_repo_root_nearest ex_has_roadmap
           [lit "roadmap"; lit "scripts"; lit "repo"; lit "home"]
           [lit "repo"; lit "home"]).
  - discriminate.
  - by exists [lit "roadmap"; lit "scripts"].
  - reflexivity.
Defined.

(** The file under the root of the file system alone is not found. *)
Example roadmap_under_root_is_not_found :
  RepoRoot.find_repo_root (λ d, bool_decide (d = []))
    [lit "roadmap"; lit "scripts"; lit "repo"]
  = [lit "roadmap"; lit "scripts"; lit "repo"].
Proof. reflexivity. Qed.

(** ** More on the loader of generate.py *)

Section GenerateLoader.

Lemma normalize_all_emitted items : ∀ norm l,
  Generate.normalize_all items norm = Ok l → l = norm ++ omap emitted items.
Proof.
  induction items as [|v items IH]; intros norm l; simpl.
  - intros [= <-]. by rewrite app_nil_r.
  - destruct v; simpl; try by apply IH.
    unfold mbind, result_bind.
    destruct (Generate.normalize d) as [[r|]|]; [| |done].
    + intros ->%IH. by rewrite <- app_assoc.
    + by apply IH.
Qed.

Lemma normalize_all_skips items : ∀ norm,
  Generate.normalize_all items norm
  = Generate.normalize_all (filter (λ v, is_dict v = true) items) norm.
Proof.
  induction items as [|v items IH]; intros norm; [done|].
  rewrite filter_cons.
  destruct v; simpl; try apply IH.
  unfold mbind, result_bind. destruct (Generate.normalize d); [apply IH|done].
Qed.

Lemma load_tasks_emitted data l :
  Generate.load_tasks (Parsed data) = Ok l →
  ∃ tasks items,
    py_get data (lit "tasks") data = Ok tasks
    ∧ py_iter tasks = Ok items
    ∧ l = omap emitted items.
Proof.
  unfold Generate.load_tasks, Generate.load_data. simpl.
  unfold mbind, result_bind.
  destruct (py_get data (lit "tasks") data) as [tasks|]; [|done].
  destruct (py_iter tasks) as [items|] eqn:Hiter; [|done].
  intros ->%normalize_all_emitted. by exists tasks, items.
Qed.

Lemma omap_shorter {A B} (f : A → option B) (l : list A) :
  length (omap f l) ≤ length l.
Proof.
  induction l as [|x l IH]; csimpl; [done|].
  destruct (f x); simpl; lia.
Qed.

Lemma py_strip_ok_iff v : (∃ s, py_strip v = Ok s) ↔ is_str v = true.
Proof.
  split.
  - intros [s (s' & -> & _)%py_strip_ok]. done.
  - destruct v; try done. simpl. eauto.
Qed.

Lemma normalize_ok_iff t :
  (∃ r, Generate.normalize t = Ok r) ↔ selects_text t.
Proof.
  unfold selects_text, Generate.normalize, mbind, result_bind, mret,
    result_ret, candidates.
  rewrite <- !py_strip_ok_iff. cbn [foldr].
  destruct (py_strip (py_or (dict_get t (lit "title") JNull) _))
    as [ti|]; [|split; [by intros [? ?]|by intros [[? ?] _]]].
  destruct (py_strip (py_or (dict_get t (lit "description") JNull) _))
    as [d|]; [|split; [by intros [? ?]|by intros (_ & [? ?] & _)]].
  destruct (py_strip (py_or (dict_get t (lit "phase") JNull) _))
    as [ph|]; [|split; [by intros [? ?]|by intros (_ & _ & [? ?] & _)]].
  destruct (py_strip (py_or (dict_get t (lit "status") JNull) _))
    as [st|]; [|split; [by intros [? ?]|by intros (_ & _ & _ & [? ?])]].
  split; [eauto 10|]. intros _. case_bool_decide; eauto.
Qed.

Lemma normalize_all_ok_iff items : ∀ norm,
  (∃ l, Generate.normalize_all items norm = Ok l)
  ↔ ∀ t, JDict t ∈ items → ∃ r, Generate.normalize t = Ok r.
Proof.
  induction items as [|v items IH]; intros norm.
  - simpl. split; [by intros _ t ?%elem_of_nil|eauto].
  - assert (∀ P : list (list N * json) → Prop,
              (∀ t, JDict t ∈ items → P t) →
              is_dict v = false → ∀ t, JDict t ∈ v :: items → P t)
      as Hskip.
    { intros P HP Hv t [<-|?]%elem_of_cons; [done|by apply HP]. }
    destruct v as [| | | | | |d]; simpl;
      try (rewrite IH; split;
           [intros HP; by apply Hskip
           |intros HP t Ht; apply HP; by right]).
    unfold mbind, result_bind.
    destruct (Generate.normalize d) as [r|x] eqn:Hd.
    + rewrite IH. split.
      * intros HP t [[= <-]|?]%elem_of_cons; [eauto|by apply HP].
      * intros HP t Ht. apply HP. by right.
    + split; [by intros [? ?]|].
      intros HP. destruct (HP d) as [r Hr]; [by left|congruence].
Qed.

(** X3: when [generate.load_tasks] returns, what it returns is, in the
    order of the input, the record of every dictionary whose trimmed
    title is not empty; so it has at most as many tasks as the input
    has items. *)
Theorem load_tasks_keeps_order data l :
  Generate.load_tasks (Parsed data) = Ok l →
  ∃ tasks items,
    py_get data (lit "tasks") data = Ok tasks
    ∧ py_iter tasks = Ok items
    ∧ l = omap emitted items
    ∧ length l ≤ length items.
Proof.
  intros (tasks & items & ? & ? & ->)%load_tasks_emitted.
  exists tasks, items. repeat split; try done. apply omap_shorter.
Qed.

Lemma load_tasks_keeps_order_witness :
  ∃ tasks items,
    py_get ex_three_tasks (lit "tasks") ex_three_tasks = Ok tasks
    ∧ py_iter tasks = Ok items
    ∧ [Task (lit "One") [] (lit "Now") (lit "To Do");
       Task (lit "Two") (lit "second") (lit "Unassigned") (lit "To Do");
       Task (lit "Three") [] (lit "Unassigned") (lit "To Do")]
      = omap emitted items
    ∧ 3 ≤ length items.
Proof.
  apply (load_tasks_keeps_order ex_three_tasks
           [Task (lit "One") [] (lit "Now") (lit "To Do");
            Task (lit "Two") (lit "second") (lit "Unassigned") (lit "To Do");
            Task (lit "Three") [] (lit "Unassigned") (lit "To Do")]).
  reflexivity.
Defined.

(** X21: [generate.load_tasks] returns, rather than raises, exactly
    when the parsed value is a mapping, the value it iterates over is a
    list, a mapping or a string, and in every dictionary of it the four
    values to trim are text. *)
Theorem load_tasks_returns_iff data :
  (∃ l, Generate.load_tasks (Parsed data) = Ok l)
  ↔ ∃ tasks items,
      py_get data (lit "tasks") data = Ok tasks
      ∧ py_iter tasks = Ok items
      ∧ ∀ t, JDict t ∈ items → selects_text t.
Proof.
  unfold Generate.load_tasks, Generate.load_data. simpl.
  unfold mbind, result_bind.
  destruct (py_get data (lit "tasks") data) as [tasks|];
    [|split; [by intros [? ?]|by intros (? & ? & ? & _)]].
  destruct (py_iter tasks) as [items|] eqn:Hiter;
    [|split; [by intros [? ?]|intros (? & ? & [= <-] & ? & _); congruence]].
  rewrite normalize_all_ok_iff. split.
  - intros Hall. exists tasks, items. split; [done|]. split; [done|].
    intros t Ht. by apply normalize_ok_iff, Hall.
  - intros (? & items' & [= <-] & Hit & Hall) t Ht.
    apply normalize_ok_iff, Hall. rewrite Hiter in Hit. by injection Hit as <-.
Qed.

(** X4: items of the input that are not dictionaries change nothing:
    the load of a list is the load of its dictionaries, whether it
    returns or raises. *)
Theorem load_tasks_skips_non_records (items : list json) :
  Generate.load_tasks (Parsed (JDict [(lit "tasks", JList items)]))
  = Generate.load_tasks
      (Parsed (JDict [(lit "tasks",
                       JList (filter (λ v, is_dict v = true) items))])).
Proof. apply normalize_all_skips. Qed.

(** X5: every task [generate.load_tasks] returns has a title that is
    not empty, and none of its four fields starts or ends with white
    space. *)
Theorem loaded_tasks_are_trimmed data l r :
  Generate.load_tasks (Parsed data) = Ok l → r ∈ l →
  title r ≠ []
  ∧ no_outer_space (title r) ∧ no_outer_space (description r)
  ∧ no_outer_space (phase r) ∧ no_outer_space (status r).
Proof.
  intros (tasks & items & _ & _ & ->)%load_tasks_emitted Hr.
  apply list_elem_of_omap in Hr as (v & _ & Hv).
  destruct v as [| | | | | |t]; try done. simpl in Hv.
  destruct (Generate.normalize t) as [[r'|]|] eqn:Ht; try done.
  injection Hv as ->.
  apply normalize_fields in Ht
    as (s1 & s2 & s3 & s4 & _ & _ & _ & _ & -> & Hti).
  simpl. repeat split; try done; apply strip_no_outer_space.
Qed.

Definition ex_padded_record : json :=
  JDict [(lit "tasks",
    JList [JDict [(lit "title", JStr (lit "  Ship it "));
                  (lit "desc", JStr (lit " soon "));
                  (lit "status", JStr (lit " Doing"))]])].

Lemma loaded_tasks_are_trimmed_witness :
  lit "Ship it" ≠ []
  ∧ no_outer_space (lit "Ship it") ∧ no_outer_space (lit "soon")
  ∧ no_outer_space (lit "Unassigned") ∧ no_outer_space (lit "Doing").
Proof.
  apply (loaded_tasks_are_trimmed ex_padded_record
           [Task (lit "Ship it") (lit "soon") (lit "Unassigned") (lit "Doing")]
           (Task (lit "Ship it") (lit "soon") (lit "Unassigned") (lit "Doing"))).
  - reflexivity.
  - apply list_elem_of_here.
Defined.

End GenerateLoader.

(** ** The order of the tasks under a heading *)

Section StringOrder.

Lemma str_ltb_irrefl a : str_ltb a a = false.
Proof.
  induction a as [|x a IH]; simpl; [done|].
  by rewrite N.ltb_irrefl.
Qed.

Lemma str_ltb_trichotomy a : ∀ b,
  str_ltb a b = true ∨ a = b ∨ str_ltb b a = true.
Proof.
  induction a as [|x a IH]; intros [|y b]; simpl; auto.
  destruct (N.ltb_spec x y), (N.ltb_spec y x); auto; try lia.
  assert (x = y) as -> by lia.
  destruct (IH b) as [?|[->|?]]; auto.
Qed.

Lemma str_ltb_trans a : ∀ b c,
  str_ltb a b = true → str_ltb b c = true → str_ltb a c = true.
Proof.
  induction a as [|x a IH]; intros [|y b] [|z c]; simpl; try done.
  destruct (N.ltb_spec x y), (N.ltb_spec y x), (N.ltb_spec y z),
    (N.ltb_spec z y), (N.ltb_spec x z), (N.ltb_spec z x);
    try done; try lia.
  apply IH.
Qed.

Lemma str_ltb_asym a b : str_ltb a b = true → str_ltb b a = false.
Proof.
  intros Hab. destruct (str_ltb b a) eqn:Hba; [|done].
  by rewrite <- (str_ltb_irrefl a), <- (str_ltb_trans a b a Hab Hba).
Qed.

(** Not being after is transitive, the order being total. *)
Lemma str_nlt_trans a b c :
  str_ltb b a = false → str_ltb c b = false → str_ltb c a = false.
Proof.
  intros Hba Hcb. destruct (str_ltb c a) eqn:Hca; [|done].
  destruct (str_ltb_trichotomy a b) as [Hab|[->|Hab]]; [|congruence..].
  by rewrite (str_ltb_trans c a b Hca Hab) in Hcb.
Qed.

End StringOrder.

Section BucketOrder.
Import Generate.
Variable lower : list N → list N.

Lemma key_ltb_key a b :
  key_ltb lower a b = true → sort_key lower a ≠ sort_key lower b.
Proof.
  unfold key_ltb, sort_key. intros Hlt [= Hs Ht].
  rewrite bool_decide_eq_true_2, Ht, str_ltb_irrefl in Hlt; done.
Qed.

Lemma key_ltb_asym a b :
  key_ltb lower a b = true → key_ltb lower b a = false.
Proof.
  unfold key_ltb. case_bool_decide as Hs.
  - rewrite bool_decide_eq_true_2 by done. apply str_ltb_asym.
  - rewrite bool_decide_eq_false_2 by done. apply str_ltb_asym.
Qed.

Lemma key_nlt_trans a b c :
  key_ltb lower b a = false → key_ltb lower c b = false →
  key_ltb lower c a = false.
Proof.
  unfold key_ltb.
  destruct (decide (status b = status a)) as [Hba|Hba],
    (decide (status c = status b)) as [Hcb|Hcb].
  - rewrite !bool_decide_eq_true_2 by congruence. apply str_nlt_trans.
  - rewrite (bool_decide_eq_true_2 _ Hba), (bool_decide_eq_false_2 _ Hcb).
    rewrite bool_decide_eq_false_2 by congruence.
    intros _. by rewrite Hba.
  - rewrite (bool_decide_eq_false_2 _ Hba), (bool_decide_eq_true_2 _ Hcb).
    rewrite bool_decide_eq_false_2 by congruence.
    intros ? _. by rewrite Hcb.
  - rewrite (bool_decide_eq_false_2 _ Hba), (bool_decide_eq_false_2 _ Hcb).
    intros H1 H2. case_bool_decide as Hca.
    + destruct (str_ltb_trichotomy (status a) (status b))
        as [Hab|[?|Hab]]; [|congruence..].
      by rewrite Hca, Hab in H2.
    + by apply (str_nlt_trans _ (status b)).
Qed.

Lemma insert_sorted_sorted x l :
  StronglySorted (λ a b, key_ltb lower b a = false) l →
  StronglySorted (λ a b, key_ltb lower b a = false)
    (insert_sorted lower x l).
Proof.
  induction 1 as [|y l Hl IH Hy]; simpl; [by repeat constructor|].
  destruct (key_ltb lower y x) eqn:Hyx.
  - constructor; [done|].
    rewrite insert_sorted_perm. constructor; [|done].
    by apply key_ltb_asym.
  - constructor; [by constructor|].
    constructor; [done|].
    eapply Forall_impl; [exact Hy|]. simpl. intros z Hz.
    by apply (key_nlt_trans _ y).
Qed.

Lemma sort_tasks_sorted l :
  StronglySorted (λ a b, key_ltb lower b a = false) (sort_tasks lower l).
Proof.
  induction l as [|x l IH]; simpl; [constructor|].
  by apply insert_sorted_sorted.
Qed.

Lemma insert_sorted_stable k x l :
  filter (λ t, sort_key lower t = k) (insert_sorted lower x l)
  = filter (λ t, sort_key lower t = k) (x :: l).
Proof.
  induction l as [|y l IH]; simpl; [done|].
  destruct (key_ltb lower y x) eqn:Hyx; [|done].
  apply key_ltb_key in Hyx.
  rewrite (filter_cons _ y), IH, !filter_cons.
  destruct (decide (sort_key lower y = k)), (decide (sort_key lower x = k));
    try done. congruence.
Qed.

Lemma sort_tasks_stable k l :
  filter (λ t, sort_key lower t = k) (sort_tasks lower l)
  = filter (λ t, sort_key lower t = k) l.
Proof.
  induction l as [|x l IH]; simpl; [done|].
  by rewrite insert_sorted_stable, !filter_cons, IH.
Qed.

(** X6: the bucket of a phase holds exactly the tasks of that phase,
    each as often as in the input, and is sorted: no task comes before
    one whose key [(status, title.lower())] is smaller. *)
Theorem bucket_sorted_permutation tasks p :
  bucket (by_phase lower tasks) p ≡ₚ filter (λ t, phase t = p) tasks
  ∧ StronglySorted (λ a b, key_ltb lower b a = false)
      (bucket (by_phase lower tasks) p).
Proof.
  rewrite bucket_by_phase. split;
    [apply sort_tasks_perm|apply sort_tasks_sorted].
Qed.

(** X7: the sort is stable: in the bucket of a phase the tasks with a
    same status and a same lowercased title keep the order of the
    input. *)
Theorem bucket_sort_is_stable tasks p k :
  filter (λ t, sort_key lower t = k) (bucket (by_phase lower tasks) p)
  = filter (λ t, sort_key lower t = k) (filter (λ t, phase t = p) tasks).
Proof. rewrite bucket_by_phase. apply sort_tasks_stable. Qed.

End BucketOrder.

(** ** More on the documents and the exports *)

Section MoreArtifacts.
Import Generate.
Variable lower : list N → list N.

(** X8: the description shown under a task is at most 160 characters
    long and has no line feed in it. *)
Theorem short_description_fits d :
  length (short_description d) ≤ 160 ∧ LF ∉ short_description d.
Proof.
  unfold short_description. case_bool_decide as Hlen.
  - split.
    + rewrite length_app, length_take_le by lia.
      change (length (lit "...")) with 3. lia.
    + rewrite elem_of_app. intros [Hin|Hin].
      * apply subseteq_take in Hin. by apply LF_not_in_single_line in Hin.
      * change (lit "...") with [46; 46; 46]%N in Hin.
        rewrite !elem_of_cons, elem_of_nil in Hin. intuition discriminate.
  - split; [lia|apply LF_not_in_single_line].
Qed.


(** What one write leaves behind. *)
Lemma write_text_cases e f text d :
  write_text e f text d = (Ok (), d ++ [(f, text)])
  ∨ ∃ x, write_text e f text d = (Raise x, d)
         ∨ write_text e f text d = (Raise x, d ++ [(f, [])]).
Proof.
  unfold write_text. destruct (open_error e f); [eauto|].
  destruct (encodable text); eauto.
Qed.

Lemma write_csv_file_cases e f rows d :
  (write_csv_file e f rows d = (Ok (), d ++ [(f, Csv.writerows rows)])
   ∧ (write_rows rows).1 = Csv.writerows rows)
  ∨ ∃ x, write_csv_file e f rows d = (Raise x, d)
         ∨ ∃ part, write_csv_file e f rows d = (Raise x, d ++ [(f, part)])
                   ∧ part `prefix_of` Csv.writerows rows.
Proof.
  unfold write_csv_file. destruct (open_error e f); [eauto|].
  destruct (write_rows rows).2 eqn:Hw.
  - right. eexists. right. eexists. split; [done|].
    apply write_rows_prefix.
  - left. by rewrite write_rows_none.
Qed.

Lemma encodable_report tasks : encodable (report tasks) = true.
Proof. unfold report. by rewrite !encodable_app, encodable_str_of_nat. Qed.

(** The files of a run of [main] that loaded [tasks]: all four, or
    the first of them, the last of these cut short. *)
Lemma main_files e tasks :
  mkdir_error e = None →
  load_tasks (source e) = Ok tasks →
  main lower e
  = Run 0 [report tasks] []
      (Some (Artifacts (roadmap_md lower tasks)
               (roadmap_kanban_md lower tasks)
               (Csv.writerows (roadmap_rows tasks))
               (Csv.writerows (issues_rows tasks))))
      (outputs lower tasks)
  ∨ ∃ x whole f text rest,
      outputs lower tasks = whole ++ (f, text) :: rest
      ∧ (main lower e
         = Run 1 [] [lit "Error generating roadmap: " ++ exn_message x]
             None whole
         ∨ ∃ part, main lower e
                   = Run 1 [] [lit "Error generating roadmap: "
                               ++ exn_message x]
                       None (whole ++ [(f, part)])
                   ∧ part `prefix_of` text).
Proof.
  intros Hmk Hload. unfold main, ensure_dirs. rewrite Hmk, Hload.
  unfold write_markdown, write_csv, outputs.
  destruct (write_text_cases e docs_ROADMAP_md (roadmap_md lower tasks) [])
    as [-> | (x & [-> | ->])].
  2:{ right. exists x, []. eexists _, _, _. split; [reflexivity|].
      by left. }
  2:{ right. exists x, []. eexists _, _, _. split; [reflexivity|].
      right. exists []. split; [done|apply prefix_nil]. }
  cbn [app].
  destruct (write_text_cases e docs_ROADMAP_KANBAN_md
              (roadmap_kanban_md lower tasks)
              [(docs_ROADMAP_md, roadmap_md lower tasks)])
    as [-> | (x & [-> | ->])].
  2:{ right. exists x, [(docs_ROADMAP_md, roadmap_md lower tasks)].
      eexists _, _, _. split; [reflexivity|]. by left. }
  2:{ right. exists x, [(docs_ROADMAP_md, roadmap_md lower tasks)].
      eexists _, _, _. split; [reflexivity|].
      right. exists []. split; [done|apply prefix_nil]. }
  cbn [app].
  destruct (write_csv_file_cases e docs_roadmap_csv (roadmap_rows tasks)
              [(docs_ROADMAP_md, roadmap_md lower tasks);
               (docs_ROADMAP_KANBAN_md, roadmap_kanban_md lower tasks)])
    as [[-> H1] | (x & [-> | (part & -> & Hpart)])].
  2:{ right. exists x, [(docs_ROADMAP_md, roadmap_md lower tasks);
               (docs_ROADMAP_KANBAN_md, roadmap_kanban_md lower tasks)].
      eexists _, _, _. split; [reflexivity|]. by left. }
  2:{ right. exists x, [(docs_ROADMAP_md, roadmap_md lower tasks);
               (docs_ROADMAP_KANBAN_md, roadmap_kanban_md lower tasks)].
      eexists _, _, _. split; [reflexivity|].
      right. by exists part. }
  cbn [app].
  destruct (write_csv_file_cases e tools_github_issues_import_csv
              (issues_rows tasks)
              [(docs_ROADMAP_md, roadmap_md lower tasks);
               (docs_ROADMAP_KANBAN_md, roadmap_kanban_md lower tasks);
               (docs_roadmap_csv, Csv.writerows (roadmap_rows tasks))])
    as [[-> H2] | (x & [-> | (part & -> & Hpart)])].
  2:{ right. exists x, [(docs_ROADMAP_md, roadmap_md lower tasks);
               (docs_ROADMAP_KANBAN_md, roadmap_kanban_md lower tasks);
               (docs_roadmap_csv, Csv.writerows (roadmap_rows tasks))].
      eexists _, _, _. split; [reflexivity|]. by left. }
  2:{ right. exists x, [(docs_ROADMAP_md, roadmap_md lower tasks);
               (docs_ROADMAP_KANBAN_md, roadmap_kanban_md lower tasks);
               (docs_roadmap_csv, Csv.writerows (roadmap_rows tasks))].
      eexists _, _, _. split; [reflexivity|].
      right. by exists part. }
  left. by rewrite encodable_report, H1, H2.
Qed.

(** X10: a successful run composes: when [main] exits with 0 the
    source was loaded, the message on the output counts the loaded
    tasks, nothing is on the error stream, and both exports read back
    as the loaded tasks. *)
Theorem successful_generation e :
  exit_code (main lower e) = 0%Z →
  ∃ tasks arts,
    load_tasks (source e) = Ok tasks
    ∧ written (main lower e) = Some arts
    ∧ stdout (main lower e)
      = [lit "Generated roadmap assets for " ++ str_of_nat (length tasks)
         ++ lit " tasks under docs/ and tools/github/."]
    ∧ stderr (main lower e) = []
    ∧ ROADMAP_md arts = roadmap_md lower tasks
    ∧ ROADMAP_KANBAN_md arts = roadmap_kanban_md lower tasks
    ∧ Csv.read (roadmap_csv_file arts)
      = Some (roadmap_header :: map roadmap_row tasks)
    ∧ Csv.read (issues_import_csv_file arts)
      = Some (issues_header :: map issues_row tasks).
Proof.
  destruct (mkdir_error e) as [x|] eqn:Hmk.
  { unfold main, ensure_dirs. by rewrite Hmk. }
  destruct (load_tasks (source e)) as [tasks|x] eqn:Hload.
  2:{ unfold main, ensure_dirs. by rewrite Hmk, Hload. }
  destruct (main_files e tasks Hmk Hload)
    as [-> | (x & whole & f & text & rest & _ & [-> | (part & -> & _)])];
    [|done..].
  intros _. exists tasks. eexists.
  repeat split; apply read_writerows.
Qed.


End MoreArtifacts.

(** ** More on the publisher *)

Section MorePublishing.
Import Issues.
Variable format_value : json → list N.

Lemma command_prefix a t ti cmd :
  command format_value a t = Ok (ti, cmd) → base_cmd a `prefix_of` cmd.
Proof.
  unfold command, mbind, result_bind, mret, result_ret.
  destruct (getitem t (lit "title")) as [v|]; [|done].
  destruct (py_strip v) as [ti'|]; [|done].
  destruct (py_strip _) as [body|]; [|done].
  intros [= <- <-]. by eexists.
Qed.

(** What the loop does to the world, however it ends: it only appends
    commands, at most one per task, each one an issue creation; it
    counts at most one issue per command; and a dry run executes
    nothing and counts nothing. *)
Lemma publish_invariant e a tasks : ∀ w,
  ∃ cmds,
    calls (final (publish format_value e a tasks w)) = calls w ++ cmds
    ∧ length cmds ≤ length tasks
    ∧ Forall (λ c, base_cmd a `prefix_of` c) cmds
    ∧ (dry_run a = true → cmds = [])
    ∧ created w ≤ created (final (publish format_value e a tasks w))
    ∧ created (final (publish format_value e a tasks w))
      ≤ created w + length cmds
    ∧ (dry_run a = true →
       created (final (publish format_value e a tasks w)) = created w).
Proof.
  induction tasks as [|t tasks IH]; intros w.
  - exists []. cbn [publish final length]. rewrite app_nil_r.
    repeat split; try done; lia.
  - cbn [publish].
    destruct (command format_value a t) as [[ti cmd]|x] eqn:Hc.
    2:{ exists []. cbn [final length]. rewrite app_nil_r.
        repeat split; try done; lia. }
    apply command_prefix in Hc.
    destruct (dry_run a) eqn:Hdry.
    { unfold print2. change (encodable (lit "DRY:")) with true. cbv iota.
      destruct (encodable (join [SPACE] cmd)).
      - destruct (IH (put (lit "DRY:" ++ SPACE :: join [SPACE] cmd) w))
          as (cmds & H1 & H2 & H3 & H4 & H5 & H6 & H7).
        exists cmds. cbn [calls created put] in *.
        repeat split; try done. cbn [length]. lia.
      - exists []. cbn [final calls created put length].
        rewrite app_nil_r. repeat split; try done; lia. }
    unfold subprocess_run.
    destruct (gh e (length (calls w)) cmd) as [|m|m|m].
    + unfold print. destruct (encodable (lit "Created issue: " ++ ti)).
      * destruct (IH (put (lit "Created issue: " ++ ti)
                        (count_created
                           (World (stdout w) (stderr w) (calls w ++ [cmd])
                              (created w)))))
          as (cmds & H1 & H2 & H3 & H4 & H5 & H6 & H7).
        exists (cmd :: cmds). cbn [calls created put count_created] in *.
        rewrite H1, <- app_assoc. cbn [length].
        repeat split; try done; try lia. by constructor.
      * exists [cmd]. cbn [final calls created count_created length].
        repeat split; try done; try lia. by repeat constructor.
    + destruct (IH (eprint (lit "Failed to create issue for '" ++ ti
                            ++ lit "': " ++ m)
                      (World (stdout w) (stderr w) (calls w ++ [cmd])
                         (created w))))
        as (cmds & H1 & H2 & H3 & H4 & H5 & H6 & H7).
      exists (cmd :: cmds). cbn [calls created eprint] in *.
      rewrite H1, <- app_assoc. cbn [length].
      repeat split; try done; try lia. by constructor.
    + exists [cmd]. cbn [final calls created length].
      repeat split; try done; try lia. by repeat constructor.
    + exists [cmd]. cbn [final calls created length].
      repeat split; try done; try lia. by repeat constructor.
Qed.

(** The same for a whole run: the commands executed are none, or the
    probe followed by issue creations. *)
Lemma main_calls e a :
  (calls (main format_value e a).2 = []
   ∧ created (main format_value e a).2 = 0
   ∧ (main format_value e a).1 = 1%Z)
  ∨ ∃ tasks cmds,
      load_tasks (source e) = Ok tasks
      ∧ calls (main format_value e a).2 = probe :: cmds
      ∧ length cmds ≤ length tasks
      ∧ Forall (λ c, base_cmd a `prefix_of` c) cmds
      ∧ created (main format_value e a).2 ≤ length cmds
      ∧ (dry_run a = true →
         cmds = [] ∧ created (main format_value e a).2 = 0)
      ∧ (repo_given a = false → dry_run a = false →
         cmds = [] ∧ (main format_value e a).1 = 1%Z).
Proof.
  unfold main.
  destruct (load_tasks (source e)) as [tasks|x]; [|by left].
  destruct tasks as [|t tasks]; [by left|].
  right. exists (t :: tasks).
  unfold subprocess_run. cbn [calls start length app].
  destruct (gh e 0 probe) as [|m|m|m];
    try (exists []; cbn [calls created eprint failed snd fst length];
         repeat split; try done; cbn [length]; lia).
  destruct (repo_given a) eqn:Hrepo, (dry_run a) eqn:Hdry;
    cbn [negb andb];
    try (exists []; cbn [calls created eprint failed snd fst length];
         repeat split; try done; cbn [length]; lia).
  all: cbn [stdout stderr created start];
       destruct (publish_invariant e a (t :: tasks)
                   (World [] [] [probe] 0))
         as (cmds & H1 & H2 & H3 & H4 & H5 & H6 & H7);
       exists cmds;
       destruct (publish format_value e a (t :: tasks)
                   (World [] [] [probe] 0)) as [[x w']|w'];
       rewrite ?print_ok by apply encodable_done;
       cbn [final calls created put eprint failed snd fst app] in *;
       rewrite Hdry in *;
       repeat split; try done; try lia; auto.
Qed.

(** X12: a dry run never executes an issue creation, whatever the
    input and whatever [gh] does: the only subprocess call, if any, is
    the version probe, and nothing is counted as created. *)
Theorem dry_run_executes_nothing e a :
  dry_run a = true →
  (calls (main format_value e a).2 = []
   ∨ calls (main format_value e a).2 = [probe])
  ∧ created (main format_value e a).2 = 0.
Proof.
  intros Hdry.
  destruct (main_calls e a)
    as [(? & ? & ?)|(tasks & cmds & _ & Hc & _ & _ & _ & Hd & _)];
    [by auto|].
  destruct (Hd Hdry) as [-> ?]. auto.
Qed.

(** X13: without a repository and without [--dry-run] the run exits
    with 1 and creates no issue: the only subprocess call, if any, is
    the version probe. *)
Theorem no_repository_creates_nothing e a :
  repo_given a = false → dry_run a = false →
  (main format_value e a).1 = 1%Z
  ∧ (calls (main format_value e a).2 = []
     ∨ calls (main format_value e a).2 = [probe]).
Proof.
  intros Hrepo Hdry.
  destruct (main_calls e a)
    as [(? & ? & ?)|(tasks & cmds & _ & Hc & _ & _ & _ & _ & Hr)];
    [by auto|].
  destruct (Hr Hrepo Hdry) as [-> ?]. auto.
Qed.

(** X14: every command a run executes is the version probe or starts
    with [gh issue create], followed by [--repo] and the repository of
    the command line when there is one. *)
Theorem commands_are_issue_creations e a c :
  c ∈ calls (main format_value e a).2 →
  c = [lit "gh"; lit "--version"]
  ∨ [lit "gh"; lit "issue"; lit "create"]
    ++ (if repo_given a then [lit "--repo"; default [] (repo a)] else [])
    `prefix_of` c.
Proof.
  destruct (main_calls e a)
    as [(-> & _)|(tasks & cmds & _ & -> & _ & Hall & _)].
  - by intros ?%elem_of_nil.
  - intros [->|Hc]%elem_of_cons; [by left|]. right.
    rewrite Forall_forall in Hall. by apply Hall.
Qed.

(** X15: a run executes at most one command per loaded task besides
    the probe, and counts at most one created issue per command. *)
Theorem at_most_one_command_per_task e a tasks :
  load_tasks (source e) = Ok tasks →
  length (calls (main format_value e a).2) ≤ S (length tasks)
  ∧ created (main format_value e a).2
    ≤ length (calls (main format_value e a).2) - 1.
Proof.
  intros Hload.
  destruct (main_calls e a)
    as [(-> & -> & _)|(tasks' & cmds & Hload' & -> & Hlen & _ & Hcr & _)].
  - simpl. lia.
  - rewrite Hload in Hload'. injection Hload' as <-. simpl. lia.
Qed.

(** Every turn of a loop that ends, outside a dry run, executes one
    command and either counts it or prints a diagnostic. *)
Lemma publish_accounting e a tasks : ∀ w w',
  dry_run a = false →
  publish format_value e a tasks w = inr w' →
  length (calls w') = length (calls w) + length tasks
  ∧ created w' + length (stderr w')
    = created w + length (stderr w) + length tasks.
Proof.
  induction tasks as [|t tasks IH]; intros w w' Hlive.
  - cbn [publish]. intros [= <-]. simpl. lia.
  - cbn [publish]. rewrite Hlive.
    destruct (command format_value a t) as [[ti cmd]|x]; [|done].
    unfold subprocess_run.
    destruct (gh e (length (calls w)) cmd) as [|m|m|m]; try done.
    + unfold print. destruct (encodable (lit "Created issue: " ++ ti));
        [|done].
      intros (H1 & H2)%IH; [|done].
      cbn [calls created stderr put count_created] in *.
      rewrite length_app in H1. cbn [length] in *. lia.
    + intros (H1 & H2)%IH; [|done].
      cbn [calls created stderr eprint] in *.
      rewrite !length_app in *. cbn [length] in *. lia.
Qed.

(** X16: when a run that is not a dry run exits with 0, the source was
    loaded, every task had its command executed after the probe, each
    command was either counted as created or reported on the error
    stream, and the last line printed gives the count. *)
Theorem exit_0_accounts_for_every_task e a :
  dry_run a = false →
  (main format_value e a).1 = 0%Z →
  ∃ tasks,
    load_tasks (source e) = Ok tasks
    ∧ length (calls (main format_value e a).2) = S (length tasks)
    ∧ created (main format_value e a).2
      + length (stderr (main format_value e a).2) = length tasks
    ∧ last (stdout (main format_value e a).2)
      = Some (lit "Done. Created "
              ++ str_of_nat (created (main format_value e a).2)
              ++ lit " issues.").
Proof.
  intros Hlive. unfold main.
  destruct (load_tasks (source e)) as [tasks|x]; [|done].
  destruct tasks as [|t tasks]; [done|].
  unfold subprocess_run. cbn [calls start length app].
  destruct (gh e 0 probe) as [|m|m|m]; try done.
  destruct (negb (repo_given a) && negb (dry_run a)); [done|].
  cbn [stdout stderr created start].
  destruct (publish format_value e a (t :: tasks) (World [] [] [probe] 0))
    as [[x w']|w'] eqn:Hp; [done|].
  rewrite print_ok by apply encodable_done.
  intros _. exists (t :: tasks).
  apply publish_accounting in Hp as [H1 H2]; [|done].
  cbn [snd calls created stderr stdout put length] in *.
  repeat split; [lia..|apply last_snoc].
Qed.

(** X17: with nothing to publish, the source failing to load or
    holding no task with a title, the run exits with 1 and runs no
    subprocess, not even the version probe. *)
Theorem nothing_to_publish_runs_nothing e a :
  (∀ tasks, load_tasks (source e) = Ok tasks → tasks = []) →
  (main format_value e a).1 = 1%Z
  ∧ calls (main format_value e a).2 = []
  ∧ created (main format_value e a).2 = 0.
Proof.
  intros Hnone. unfold main.
  destruct (load_tasks (source e)) as [tasks|x]; [|done].
  by rewrite (Hnone tasks eq_refl).
Qed.

End MorePublishing.

(** ** More on the loader of create_github_issues.py *)

Section IssuesLoader.
Import Issues.

Lemma dict_has_app d d' k :
  dict_has (d ++ d') k = dict_has d k || dict_has d' k.
Proof.
  unfold dict_has. rewrite fmap_app.
  apply eq_true_iff_eq.
  rewrite orb_true_iff, !bool_decide_eq_true, elem_of_app. tauto.
Qed.

Lemma dict_has_setdefault d k v : dict_has (dict_setdefault d k v) k = true.
Proof.
  unfold dict_setdefault. destruct (dict_has d k) eqn:Hk; [done|].
  rewrite dict_has_app, Hk. unfold dict_has. simpl.
  apply bool_decide_eq_true_2. by left.
Qed.

Lemma dict_has_setdefault_mono d k k' v :
  dict_has d k = true → dict_has (dict_setdefault d k' v) k = true.
Proof.
  intros Hk. unfold dict_setdefault. destruct (dict_has d k'); [done|].
  by rewrite dict_has_app, Hk.
Qed.

Lemma dict_setdefault_present d k v :
  dict_has d k = true → dict_setdefault d k v = d.
Proof. unfold dict_setdefault. by intros ->. Qed.

Lemma dict_setdefault_prefix d k v : d `prefix_of` dict_setdefault d k v.
Proof.
  unfold dict_setdefault. destruct (dict_has d k); [done|].
  by apply prefix_app_r.
Qed.

Lemma dict_get_prefix d d' k v :
  d `prefix_of` d' → dict_has d k = true → dict_get d' k v = dict_get d k v.
Proof.
  intros [x ->] Hk. unfold dict_has in Hk. apply bool_decide_eq_true in Hk.
  induction d as [|[k0 v0] d IH]; simpl in *.
  - by apply elem_of_nil in Hk.
  - case_bool_decide; [done|].
    apply IH. apply elem_of_cons in Hk as [?|?]; [congruence|done].
Qed.

Lemma fill_defaults_prefix t : t `prefix_of` fill_defaults t.
Proof.
  unfold fill_defaults.
  etransitivity; [|apply dict_setdefault_prefix].
  etransitivity; [|apply dict_setdefault_prefix].
  apply dict_setdefault_prefix.
Qed.

Lemma fill_defaults_has t :
  dict_has (fill_defaults t) (lit "description") = true
  ∧ dict_has (fill_defaults t) (lit "phase") = true
  ∧ dict_has (fill_defaults t) (lit "status") = true.
Proof.
  unfold fill_defaults. repeat split.
  - do 2 apply dict_has_setdefault_mono. apply dict_has_setdefault.
  - apply dict_has_setdefault_mono, dict_has_setdefault.
  - apply dict_has_setdefault.
Qed.

Lemma elem_of_titled t items :
  t ∈ titled items →
  JDict t ∈ items ∧ truthy (dict_get t (lit "title") JNull) = true.
Proof.
  induction items as [|v items IH]; simpl; [by intros ?%elem_of_nil|].
  destruct v as [| | | | | |d];
    try (intros [? ?]%IH; split; [by right|done]).
  destruct (truthy (dict_get d (lit "title") JNull)) eqn:Hd.
  - intros [->|[? ?]%IH]%elem_of_cons; split; try done; [by left|by right].
  - intros [? ?]%IH. split; [by right|done].
Qed.

(** X18: every record the loader of the publisher returns stems from a
    dictionary of the input, has a truthy title, has the keys
    [description], [phase] and [status], and keeps every item of the
    input dictionary, in place and with its value: defaults are only
    appended. *)
Theorem loaded_records_are_filled data l t' :
  load_tasks (Parsed data) = Ok l → t' ∈ l →
  truthy (dict_get t' (lit "title") JNull) = true
  ∧ dict_has t' (lit "description") = true
  ∧ dict_has t' (lit "phase") = true
  ∧ dict_has t' (lit "status") = true
  ∧ ∃ tasks items t,
      py_get data (lit "tasks") data = Ok tasks
      ∧ py_iter tasks = Ok items
      ∧ JDict t ∈ items
      ∧ t `prefix_of` t'
      ∧ ∀ k v, dict_has t k = true → dict_get t' k v = dict_get t k v.
Proof.
  unfold load_tasks, load_data. simpl.
  unfold mbind, result_bind, mret, result_ret.
  destruct (py_get data (lit "tasks") data) as [tasks|]; [|done].
  destruct (py_iter tasks) as [items|] eqn:Hiter; [|done].
  intros [= <-] [Hin Htitle]%elem_of_titled.
  apply elem_of_map in Hin as (v & Hv & Hin).
  destruct v as [| | | | | |t]; try done.
  injection Hv as ->.
  destruct (fill_defaults_has t) as (? & ? & ?).
  repeat split; try done.
  exists tasks, items, t. repeat split; try done.
  - apply fill_defaults_prefix.
  - intros k v. apply dict_get_prefix, fill_defaults_prefix.
Qed.

(** X19: filling the defaults twice is filling them once. *)
Theorem fill_defaults_idempotent t :
  fill_defaults (fill_defaults t) = fill_defaults t.
Proof.
  destruct (fill_defaults_has t) as (Hd & Hp & Hs).
  unfold fill_defaults at 1.
  rewrite (dict_setdefault_present _ (lit "description")) by done.
  rewrite (dict_setdefault_present _ (lit "phase")) by done.
  by rewrite (dict_setdefault_present _ (lit "status")).
Qed.

Lemma no_dict_no_task items :
  Forall (λ v, is_dict v = false) items →
  (∀ norm, Generate.normalize_all items norm = Ok norm)
  ∧ titled (map fill_item items) = [].
Proof.
  induction 1 as [|v items Hv _ [IH1 IH2]]; [done|].
  destruct v; try done; simpl; auto.
Qed.

(** X20: a top-level mapping without the key [tasks] is iterated over
    its keys, so both loaders find no task in it and raise nothing;
    the generator, when the files can be opened, then reports 0 tasks
    and exits with 0, and the publisher prints [No tasks found.] and
    exits with 1 without running anything. *)
Theorem mapping_without_tasks_key d :
  dict_has d (lit "tasks") = false →
  Generate.load_tasks (Parsed (JDict d)) = Ok []
  ∧ load_tasks (Parsed (JDict d)) = Ok []
  ∧ (∀ lower src,
       Generate.exit_code
         (Generate.main lower
            (Generate.Env src (Parsed (JDict d)) None (λ _, None)))
       = 0%Z
       ∧ Generate.stdout
           (Generate.main lower
              (Generate.Env src (Parsed (JDict d)) None (λ _, None)))
         = [lit "Generated roadmap assets for 0 tasks under docs/ and tools/github/."])
  ∧ ∀ format_value src gh a,
      main format_value (Env src (Parsed (JDict d)) gh) a
      = (1%Z, World [lit "No tasks found."] [] [] 0).
Proof.
  intros Hd.
  assert (Forall (λ v, is_dict v = false)
            (map (λ kv : list N * json, JStr kv.1) d)) as Hkeys.
  { apply Forall_forall. by intros v (kv & -> & _)%elem_of_map. }
  destruct (no_dict_no_task _ Hkeys) as [Hgen Hiss].
  assert (load_tasks (Parsed (JDict d)) = Ok []) as Hload.
  { unfold load_tasks, load_data. simpl.
    rewrite (dict_get_absent d (lit "tasks")) by done. simpl.
    unfold mret, result_ret. by rewrite Hiss. }
  assert (Generate.load_tasks (Parsed (JDict d)) = Ok []) as Hgload.
  { unfold Generate.load_tasks, Generate.load_data. simpl.
    rewrite (dict_get_absent d (lit "tasks")) by done. simpl. apply Hgen. }
  split; [done|]. split; [done|]. split.
  - intros lower src. unfold Generate.main, Generate.ensure_dirs.
    cbn [Generate.mkdir_error Generate.source].
    by rewrite Hgload.
  - intros format_value src gh a. unfold main. simpl source.
    by rewrite Hload.
Qed.

End IssuesLoader.

(** ** Concrete runs, continued *)

Lemma successful_generation_witness :
  ∃ tasks arts,
    Generate.load_tasks (Parsed ex_three_tasks) = Ok tasks
    ∧ Generate.written
        (Generate.main ascii_lower (ex_generate_env (Parsed ex_three_tasks)))
      = Some arts
    ∧ Generate.stdout
        (Generate.main ascii_lower (ex_generate_env (Parsed ex_three_tasks)))
      = [lit "Generated roadmap assets for " ++ str_of_nat (length tasks)
         ++ lit " tasks under docs/ and tools/github/."]
    ∧ Generate.stderr
        (Generate.main ascii_lower (ex_generate_env (Parsed ex_three_tasks)))
      = []
    ∧ Generate.ROADMAP_md arts = Generate.roadmap_md ascii_lower tasks
    ∧ Generate.ROADMAP_KANBAN_md arts
      = Generate.roadmap_kanban_md ascii_lower tasks
    ∧ Csv.read (Generate.roadmap_csv_file arts)
      = Some (Generate.roadmap_header :: map Generate.roadmap_row tasks)
    ∧ Csv.read (Generate.issues_import_csv_file arts)
      = Some (Generate.issues_header :: map Generate.issues_row tasks).
Proof.
  apply (successful_generation ascii_lower
           (ex_generate_env (Parsed ex_three_tasks))).
  reflexivity.
Defined.


(** The run on a missing source, in full: [load_tasks] and [main] each
    print a line. *)
Example missing_source_run :
  Generate.main ascii_lower
    (ex_generate_env (Missing (lit "[Errno 2] No such file or directory")))
  = Generate.Run 1 []
      [lit "Error: blackbox_roadmap_with_backlog.json not found";
       lit "Error generating roadmap: [Errno 2] No such file or directory"]
      None [].
Proof. reflexivity. Qed.

Definition ex_loaded : list (list (list N * json)) :=
  match Issues.load_tasks (Parsed ex_three_tasks) with
  | Ok l => l
  | Raise _ => []
  end.

Lemma dry_run_executes_nothing_witness :
  (Issues.calls
     (Issues.main format_none (ex_env ex_three_tasks gh_second_fails)
        (Issues.Args (Some (lit "owner/name")) true)).2 = []
   ∨ Issues.calls
       (Issues.main format_none (ex_env ex_three_tasks gh_second_fails)
          (Issues.Args (Some (lit "owner/name")) true)).2 = [Issues.probe])
  ∧ Issues.created
      (Issues.main format_none (ex_env ex_three_tasks gh_second_fails)
         (Issues.Args (Some (lit "owner/name")) true)).2 = 0.
Proof.
  apply (dry_run_executes_nothing format_none
           (ex_env ex_three_tasks gh_second_fails)
           (Issues.Args (Some (lit "owner/name")) true)).
  reflexivity.
Defined.

Lemma no_repository_creates_nothing_witness :
  (Issues.main format_none
     (ex_env ex_three_tasks (λ _ _, Issues.Completed))
     (Issues.Args None false)).1 = 1%Z
  ∧ (Issues.calls
       (Issues.main format_none
          (ex_env ex_three_tasks (λ _ _, Issues.Completed))
          (Issues.Args None false)).2 = []
     ∨ Issues.calls
         (Issues.main format_none
            (ex_env ex_three_tasks (λ _ _, Issues.Completed))
            (Issues.Args None false)).2 = [Issues.probe]).
Proof.
  apply (no_repository_creates_nothing format_none
           (ex_env ex_three_tasks (λ _ _, Issues.Completed))
           (Issues.Args None false)); reflexivity.
Defined.

Definition ex_second_command : list (list N) :=
  [lit "gh"; lit "issue"; lit "create"; lit "--repo"; lit "owner/name";
   lit "--title"; lit "Two"; lit "--body"; lit "second"; lit "--label";
   lit "phase:Unassigned,status:To Do"].

Lemma commands_are_issue_creations_witness :
  ex_second_command = [lit "gh"; lit "--version"]
  ∨ [lit "gh"; lit "issue"; lit "create"]
    ++ [lit "--repo"; lit "owner/name"]
    `prefix_of` ex_second_command.
Proof.
  apply (commands_are_issue_creations format_none
           (ex_env ex_three_tasks gh_second_fails)
           (Issues.Args (Some (lit "owner/name")) false)
           ex_second_command).
  do 2 apply list_elem_of_further. apply list_elem_of_here.
Defined.

Lemma at_most_one_command_per_task_witness :
  length
    (Issues.calls
       (Issues.main format_none (ex_env ex_three_tasks gh_second_fails)
          (Issues.Args (Some (lit "owner/name")) false)).2)
  ≤ S (length ex_loaded)
  ∧ Issues.created
      (Issues.main format_none (ex_env ex_three_tasks gh_second_fails)
         (Issues.Args (Some (lit "owner/name")) false)).2
    ≤ length
        (Issues.calls
           (Issues.main format_none (ex_env ex_three_tasks gh_second_fails)
              (Issues.Args (Some (lit "owner/name")) false)).2) - 1.
Proof.
  apply (at_most_one_command_per_task format_none
           (ex_env ex_three_tasks gh_second_fails)
           (Issues.Args (Some (lit "owner/name")) false) ex_loaded).
  reflexivity.
Defined.

Lemma exit_0_accounts_for_every_task_witness :
  ∃ tasks,
    Issues.load_tasks (Parsed ex_three_tasks) = Ok tasks
    ∧ length
        (Issues.calls
           (Issues.main format_none (ex_env ex_three_tasks gh_second_fails)
              (Issues.Args (Some (lit "owner/name")) false)).2)
      = S (length tasks)
    ∧ Issues.created
        (Issues.main format_none (ex_env ex_three_tasks gh_second_fails)
           (Issues.Args (Some (lit "owner/name")) false)).2
      + length
          (Issues.stderr
             (Issues.main format_none (ex_env ex_three_tasks gh_second_fails)
                (Issues.Args (Some (lit "owner/name")) false)).2)
      = length tasks
    ∧ last
        (Issues.stdout
           (Issues.main format_none (ex_env ex_three_tasks gh_second_fails)
              (Issues.Args (Some (lit "owner/name")) false)).2)
      = Some (lit "Done. Created "
              ++ str_of_nat
                   (Issues.created
                      (Issues.main format_none
                         (ex_env ex_three_tasks gh_second_fails)
                         (Issues.Args (Some (lit "owner/name")) false)).2)
              ++ lit " issues.").
Proof.
  apply (exit_0_accounts_for_every_task format_none
           (ex_env ex_three_tasks gh_second_fails)
           (Issues.Args (Some (lit "owner/name")) false)); reflexivity.
Defined.

Definition ex_missing_env : Issues.env :=
  Issues.Env (lit "blackbox_roadmap_with_backlog.json")
    (Missing (lit "no file")) (λ _ _, Issues.Completed).

Lemma nothing_to_publish_runs_nothing_witness :
  (Issues.main format_none ex_missing_env (Issues.Args None true)).1 = 1%Z
  ∧ Issues.calls
      (Issues.main format_none ex_missing_env (Issues.Args None true)).2 = []
  ∧ Issues.created
      (Issues.main format_none ex_missing_env (Issues.Args None true)).2 = 0.
Proof.
  apply (nothing_to_publish_runs_nothing format_none ex_missing_env
           (Issues.Args None true)).
  intros tasks Hload. discriminate Hload.
Defined.

Definition ex_second_filled : list (list N * json) :=
  [(lit "title", JStr (lit "Two")); (lit "desc", JStr (lit "second"));
   (lit "description", JStr (lit "second"));
   (lit "phase", JStr (lit "Unassigned"));
   (lit "status", JStr (lit "To Do"))].

Lemma loaded_records_are_filled_witness :
  truthy (dict_get ex_second_filled (lit "title") JNull) = true
  ∧ dict_has ex_second_filled (lit "description") = true
  ∧ dict_has ex_second_filled (lit "phase") = true
  ∧ dict_has ex_second_filled (lit "status") = true
  ∧ ∃ tasks items t,
      py_get ex_three_tasks (lit "tasks") ex_three_tasks = Ok tasks
      ∧ py_iter tasks = Ok items
      ∧ JDict t ∈ items
      ∧ t `prefix_of` ex_second_filled
      ∧ ∀ k v, dict_has t k = true →
               dict_get ex_second_filled k v = dict_get t k v.
Proof.
  apply (loaded_records_are_filled ex_three_tasks ex_loaded ex_second_filled).
  - reflexivity.
  - apply list_elem_of_further, list_elem_of_here.
Defined.

Lemma mapping_without_tasks_key_witness :
  Generate.load_tasks (Parsed (JDict [(lit "title", JStr (lit "A"))])) = Ok []
  ∧ Issues.load_tasks (Parsed (JDict [(lit "title", JStr (lit "A"))])) = Ok []
  ∧ (∀ lower src,
       Generate.exit_code
         (Generate.main lower
            (Generate.Env src (Parsed (JDict [(lit "title", JStr (lit "A"))]))
               None (λ _, None))) = 0%Z
       ∧ Generate.stdout
           (Generate.main lower
              (Generate.Env src
                 (Parsed (JDict [(lit "title", JStr (lit "A"))])) None
                 (λ _, None)))
         = [lit "Generated roadmap assets for 0 tasks under docs/ and tools/github/."])
  ∧ ∀ format_value src gh a,
      Issues.main format_value
        (Issues.Env src (Parsed (JDict [(lit "title", JStr (lit "A"))])) gh) a
      = (1%Z, Issues.World [lit "No tasks found."] [] [] 0).
Proof.
  apply (mapping_without_tasks_key [(lit "title", JStr (lit "A"))]).
  reflexivity.
Defined.
